(** * CSV_Combine: a shallow embedding of [app.py] and its properties

    The Flask application keeps validated CSV uploads in the directory
    [uploads], merges them on request into one download and deletes the
    originals afterwards.  The handlers [index], [upload_files],
    [remove_file] and [combine_csv] are embedded as pure functions over an
    explicit file-system state; what Flask keeps in the session ([flash])
    is returned next to the response.

    Three things the handlers call are not part of the repository and are
    kept outside the embedding proper:
    - the operating system ([os.listdir], [os.path.exists], [open],
      [os.remove], [FileStorage.save]) is module [Os], a small sequential
      model of a directory tree;
    - [werkzeug.utils.secure_filename] is module [Werkzeug], written after
      the library function, with its Unicode folding left as a parameter;
    - pandas is module [Pandas]: the tokenizer behind [read_csv] and the
      writer behind [to_csv] are parameters, the documented NA conversion
      and [concat] are definitions. *)

From Stdlib Require Import List String Ascii Strings.Byte Bool Arith ZArith Lia Permutation.
Import ListNotations.
Local Open Scope string_scope.
Local Open Scope list_scope.

Set Implicit Arguments.

(** ** Python values shared by all modules *)

(** The exceptions the handlers can see; every handler catches [Exception]
    and only uses [str(e)], so the constructor is all that is kept. *)
Inductive exn : Type :=
| FileNotFoundError
| IsADirectoryError
| NotADirectoryError
| PermissionError
| ParserError (detail : string)
| InvalidIndexError
| ValueError (detail : string).

Inductive result (A : Type) : Type :=
| Ok (a : A)
| Raise (e : exn).

Arguments Ok {A} a.
Arguments Raise {A} e.

Definition is_nil {A : Type} (l : list A) : bool :=
  match l with [] => true | _ :: _ => false end.

Definition in_list (s : string) (l : list string) : bool :=
  existsb (String.eqb s) l.

(** [s.split(sep)] for a one-character separator: never the empty list. *)
Fixpoint split_on (sep : ascii) (s : string) : list string :=
  match s with
  | EmptyString => [EmptyString]
  | String c s' =>
      if Ascii.eqb c sep then EmptyString :: split_on sep s'
      else match split_on sep s' with
           | [] => [String c EmptyString]
           | w :: ws => String c w :: ws
           end
  end.

(** [sep.join(pieces)] *)
Fixpoint join (sep : string) (pieces : list string) : string :=
  match pieces with
  | [] => EmptyString
  | [w] => w
  | w :: ws => w ++ sep ++ join sep ws
  end.

Fixpoint string_forall (p : ascii -> bool) (s : string) : bool :=
  match s with
  | EmptyString => true
  | String c s' => p c && string_forall p s'
  end.

Fixpoint string_filter (p : ascii -> bool) (s : string) : string :=
  match s with
  | EmptyString => EmptyString
  | String c s' => if p c then String c (string_filter p s') else string_filter p s'
  end.

Fixpoint string_map (f : ascii -> ascii) (s : string) : string :=
  match s with
  | EmptyString => EmptyString
  | String c s' => String (f c) (string_map f s')
  end.

Definition between (lo hi : nat) (c : ascii) : bool :=
  Nat.leb lo (nat_of_ascii c) && Nat.leb (nat_of_ascii c) hi.

(** [str.lower] on the ASCII range. *)
Definition lower_char (c : ascii) : ascii :=
  if between 65 90 c then ascii_of_nat (nat_of_ascii c + 32) else c.

Definition lower (s : string) : string := string_map lower_char s.

(** ** The operating system *)

Module Os.

(** A resolved path: whether it is absolute, and its components. *)
Definition path : Type := (bool * list string)%type.

(** A regular file (with the immutable attribute or without) or a
    directory. *)
Inductive node : Type :=
| File (immutable : bool) (content : list byte)
| Dir.

(** The tree as an association list; the order of the entries is the order
    in which [os.listdir] reports them. *)
Definition fs : Type := list (path * node).

Definition path_eq_dec (a b : path) : {a = b} + {a <> b}.
Proof.
  decide equality.
  - apply (list_eq_dec string_dec).
  - apply bool_dec.
Defined.

Definition path_eqb (a b : path) : bool :=
  if path_eq_dec a b then true else false.

Definition is_absolute (p : string) : bool :=
  match p with
  | String c _ => Ascii.eqb c "/"
  | EmptyString => false
  end.

(** Resolution of [.], [..] and repeated separators (no symbolic links).
    [acc] holds the components already resolved, innermost first. *)
Fixpoint collapse (abs : bool) (acc comps : list string) : list string :=
  match comps with
  | [] => rev acc
  | c :: cs =>
      if (c =? "") || (c =? ".") then collapse abs acc cs
      else if c =? ".." then
        match acc with
        | [] => if abs then collapse abs [] cs else collapse abs [c] cs
        | a :: acc' =>
            if a =? ".." then collapse abs (c :: acc) cs
            else collapse abs acc' cs
        end
      else collapse abs (c :: acc) cs
  end.

Definition resolve (p : string) : path :=
  (is_absolute p, collapse (is_absolute p) [] (split_on "/" p)).

Fixpoint lookup (k : path) (d : fs) : option node :=
  match d with
  | [] => None
  | (k', n) :: d' => if path_eq_dec k k' then Some n else lookup k d'
  end.

Definition ends_with_sep (p : string) : bool :=
  last (split_on "/" p) "x" =? "".

(** The node a path string names.  The empty path names nothing, and a
    path with a trailing separator names a directory or nothing. *)
Definition stat (d : fs) (p : string) : result node :=
  if p =? "" then Raise FileNotFoundError
  else match lookup (resolve p) d with
       | Some (File immutable content) =>
           if ends_with_sep p then Raise NotADirectoryError
           else Ok (File immutable content)
       | Some Dir => Ok Dir
       | None => Raise FileNotFoundError
       end.

Definition unlink (k : path) (d : fs) : fs :=
  filter (fun e => negb (path_eqb k (fst e))) d.

(** Overwrite in place, or append a new entry. *)
Fixpoint store (k : path) (n : node) (d : fs) : fs :=
  match d with
  | [] => [(k, n)]
  | (k', n') :: d' =>
      if path_eq_dec k k' then (k, n) :: d' else (k', n') :: store k n d'
  end.

Fixpoint strip_prefix (pre l : list string) : option (list string) :=
  match pre, l with
  | [], _ => Some l
  | a :: pre', b :: l' => if a =? b then strip_prefix pre' l' else None
  | _ :: _, [] => None
  end.

(** The name under which [k] is listed in directory [dir], if it is a
    direct child of it. *)
Definition child_name (dir k : path) : option string :=
  if Bool.eqb (fst dir) (fst k) then
    match strip_prefix (snd dir) (snd k) with
    | Some [name] => Some name
    | _ => None
    end
  else None.

Definition children (dir : path) (d : fs) : list string :=
  flat_map (fun e => match child_name dir (fst e) with
                     | Some name => [name]
                     | None => []
                     end) d.

(** [os.listdir(p)] *)
Definition listdir (d : fs) (p : string) : result (list string) :=
  match stat d p with
  | Ok Dir => Ok (children (resolve p) d)
  | Ok (File _ _) => Raise NotADirectoryError
  | Raise e => Raise e
  end.

(** [os.path.exists(p)] *)
Definition path_exists (d : fs) (p : string) : bool :=
  match stat d p with Ok _ => true | Raise _ => false end.

(** [open(p, 'rb').read()] *)
Definition read_bytes (d : fs) (p : string) : result (list byte) :=
  match stat d p with
  | Ok (File _ content) => Ok content
  | Ok Dir => Raise IsADirectoryError
  | Raise e => Raise e
  end.

(** [os.remove(p)] *)
Definition remove (d : fs) (p : string) : result fs :=
  match stat d p with
  | Ok (File false _) => Ok (unlink (resolve p) d)
  | Ok (File true _) => Raise PermissionError
  | Ok Dir => Raise IsADirectoryError
  | Raise e => Raise e
  end.

Definition parent (k : path) : path := (fst k, removelast (snd k)).

(** [FileStorage.save(p)]: create or truncate [p] and write the payload. *)
Definition save (d : fs) (p : string) (payload : list byte) : result fs :=
  match stat d p with
  | Ok (File false _) => Ok (store (resolve p) (File false payload) d)
  | Ok (File true _) => Raise PermissionError
  | Ok Dir => Raise IsADirectoryError
  | Raise NotADirectoryError => Raise NotADirectoryError
  | Raise _ =>
      if p =? "" then Raise FileNotFoundError
      else if ends_with_sep p then Raise IsADirectoryError
      else match lookup (parent (resolve p)) d with
           | Some Dir => Ok (store (resolve p) (File false payload) d)
           | Some (File _ _) => Raise NotADirectoryError
           | None => Raise FileNotFoundError
           end
  end.

(** [os.path.join(a, b)] (POSIX) *)
Definition path_join (a b : string) : string :=
  if is_absolute b then b
  else if (a =? "") || ends_with_sep a then a ++ b
  else a ++ "/" ++ b.

(** [os.path.basename(p)] (POSIX): what follows the last separator. *)
Definition basename (p : string) : string := last (split_on "/" p) "".

End Os.

(** ** werkzeug.utils.secure_filename *)

Module Werkzeug.

(** [str.split()] separators in the ASCII range. *)
Definition is_space (c : ascii) : bool :=
  between 9 13 c || between 28 32 c.

(** [_filename_ascii_strip_re] removes what is not in [[A-Za-z0-9_.-]]. *)
Definition safe_char (c : ascii) : bool :=
  between 65 90 c || between 97 122 c || between 48 57 c
  || Ascii.eqb c "_" || Ascii.eqb c "." || Ascii.eqb c "-".

Definition edge_char (c : ascii) : bool := Ascii.eqb c "." || Ascii.eqb c "_".

Fixpoint split_by (p : ascii -> bool) (s : string) : list string :=
  match s with
  | EmptyString => [EmptyString]
  | String c s' =>
      if p c then EmptyString :: split_by p s'
      else match split_by p s' with
           | [] => [String c EmptyString]
           | w :: ws => String c w :: ws
           end
  end.

(** [s.split()]: the maximal runs without white space. *)
Definition py_split (s : string) : list string :=
  filter (fun w => negb (w =? "")) (split_by is_space s).

Fixpoint lstrip (p : ascii -> bool) (s : string) : string :=
  match s with
  | EmptyString => EmptyString
  | String c s' => if p c then lstrip p s' else s
  end.

Fixpoint rstrip (p : ascii -> bool) (s : string) : string :=
  match s with
  | EmptyString => EmptyString
  | String c s' =>
      match rstrip p s' with
      | EmptyString => if p c then EmptyString else String c EmptyString
      | r => String c r
      end
  end.

(** [s.strip(chars)] *)
Definition strip (p : ascii -> bool) (s : string) : string :=
  rstrip p (lstrip p s).

Section SecureFilename.

(** [unicodedata.normalize("NFKD", s).encode("ascii", "ignore").decode("ascii")] *)
Variable ascii_fold : string -> string.

(** On POSIX: [os.path.sep] is the only separator, and the guard for the
    device names of Windows does not apply. *)
Definition secure_filename (filename : string) : string :=
  let filename := ascii_fold filename in
  let filename := string_map (fun c => if Ascii.eqb c "/" then " "%char else c) filename in
  let filename := join "_" (py_split filename) in
  let filename := string_filter safe_char filename in
  strip edge_char filename.

End SecureFilename.

(** The folding on names that are ASCII already: NFKD leaves them as they
    are, and the encoding drops every other character. *)
Definition ascii_only (s : string) : string :=
  string_filter (fun c => Nat.ltb (nat_of_ascii c) 128) s.

End Werkzeug.

(** ** pandas *)

Module Pandas.

(** A cell of an object column: a Python [str], or the missing marker. *)
Inductive cell : Type :=
| Str (s : string)
| NaN.

(** A frame as [combine_csv] sees it: the column labels and the records in
    row order (the row index plays no part: [ignore_index], [index=False]). *)
Record DataFrame : Type := mkFrame {
  columns : list string;
  rows : list (list cell)
}.

(** [df.empty]: some axis has length 0. *)
Definition empty (df : DataFrame) : bool :=
  is_nil (columns df) || is_nil (rows df).

(** The tokens [read_csv] takes for missing values unless told otherwise. *)
Definition default_na : list string :=
  [""; "#N/A"; "#N/A N/A"; "#NA"; "-1.#IND"; "-1.#QNAN"; "-NaN"; "-nan";
   "1.#IND"; "1.#QNAN"; "<NA>"; "N/A"; "NA"; "NULL"; "NaN"; "None"; "n/a";
   "nan"; "null"].

(** The conversion of one token of a [dtype=str] column. *)
Definition convert (keep_default_na : bool) (tok : string) : cell :=
  if keep_default_na && in_list tok default_na then NaN else Str tok.

Definition labels_eqb (a b : list string) : bool :=
  if list_eq_dec string_dec a b then true else false.

Fixpoint unique (seen l : list string) : bool :=
  match l with
  | [] => true
  | x :: l' => negb (in_list x seen) && unique (x :: seen) l'
  end.

(** The labels of [l] not in [seen], each once, in order of appearance. *)
Fixpoint fresh (seen l : list string) : list string :=
  match l with
  | [] => []
  | x :: l' => if in_list x seen then fresh seen l' else x :: fresh (x :: seen) l'
  end.

Fixpoint index_of (x : string) (l : list string) : option nat :=
  match l with
  | [] => None
  | y :: l' => if x =? y then Some 0
               else match index_of x l' with
                    | Some i => Some (S i)
                    | None => None
                    end
  end.

(** The records of [df] laid out under the labels [target]. *)
Definition reindex (target : list string) (df : DataFrame) : list (list cell) :=
  map (fun r => map (fun c => match index_of c (columns df) with
                              | Some i => nth i r NaN
                              | None => NaN
                              end) target) (rows df).

(** [pd.concat(objs, ignore_index=True)].  Frames with the same labels are
    stacked; otherwise the labels are united and the gaps filled with the
    missing marker, which needs labels that are unique in each frame. *)
Definition concat (objs : list DataFrame) : result DataFrame :=
  match objs with
  | [] => Raise (ValueError "No objects to concatenate")
  | df :: rest =>
      if forallb (fun d => labels_eqb (columns d) (columns df)) rest then
        Ok (mkFrame (columns df) (flat_map rows objs))
      else if forallb (fun d => unique [] (columns d)) objs then
        let target := fresh [] (flat_map columns objs) in
        Ok (mkFrame target (flat_map (reindex target) objs))
      else Raise InvalidIndexError
  end.

Section Reader.

(** The tokenizer of [read_csv] with the header inferred from the first
    line: the column labels and the records as raw text, or the error
    raised ([ParserError], [EmptyDataError], [UnicodeDecodeError]). *)
Variable tokenize : list byte -> result (list string * list (list string)).

(** [pd.read_csv(BytesIO(content), dtype=str, keep_default_na=..., encoding='utf-8')] *)
Definition read_csv (content : list byte) (keep_default_na : bool) : result DataFrame :=
  match tokenize content with
  | Raise e => Raise e
  | Ok (header, records) =>
      Ok (mkFrame header (map (map (convert keep_default_na)) records))
  end.

End Reader.

End Pandas.

(** ** app.py *)

Import Pandas.

Definition UPLOAD_FOLDER : string := "uploads".
Definition ALLOWED_EXTENSIONS : list string := ["csv"].
Definition MAX_CONTENT_LENGTH : Z := (50 * 1024 * 1024)%Z.

(** [filename.rsplit('.', 1)] *)
Definition rsplit1_dot (filename : string) : list string :=
  match split_on "." filename with
  | [] => [filename]
  | [w] => [w]
  | pieces => [join "." (removelast pieces); last pieces ""]
  end.

Definition contains_dot (filename : string) : bool :=
  negb (string_forall (fun c => negb (Ascii.eqb c ".")) filename).

Definition allowed_file (filename : string) : bool :=
  contains_dot filename
  && in_list (lower (nth 1 (rsplit1_dot filename) "")) ALLOWED_EXTENSIONS.

(** What the handlers [flash]; one constructor per message template. *)
Inductive message : Type :=
| AccessError (e : exn)              (* Error accessing uploads folder: e *)
| NoFilesSelected                    (* No files selected *)
| UploadEmpty (filename : string)    (* File f is empty *)
| UploadTooLarge (filename : string) (* File f exceeds size limit (50 MB) *)
| SavedEmpty (filename : string)     (* File f is empty or invalid *)
| SaveMissing (filename : string)    (* Failed to save f: File not found after saving *)
| SaveFailed (filename : string) (e : exn) (* Failed to save f: e *)
| InvalidFile (filename : string)    (* Invalid file: f. Only CSV files are allowed. *)
| Uploaded (count : nat)             (* Successfully uploaded n file(s) *)
| NoneUploaded                       (* No files were successfully uploaded *)
| Removed (filename : string)        (* Removed f *)
| RemoveFailed (filename : string) (e : exn) (* Failed to remove f: e *)
| RemoveNotFound (filename : string) (* File f not found *)
| NoCsvFound                         (* No CSV files found in uploads folder *)
| FileNotFound (filename : string)   (* File f not found *)
| FileEmpty (basename : string)      (* File f is empty *)
| EmptyOrInvalid (basename : string) (* File f is empty or invalid *)
| HeaderMismatch                     (* Header mismatch detected. ... *)
| ReadError (basename : string) (e : exn) (* Error reading f: e *)
| NoValidData                        (* No valid CSV files could be read *)
| CombineError (e : exn).            (* Error combining files: e *)

Inductive response : Type :=
| Redirect                           (* redirect(url_for('index')) *)
| Page (uploaded_files : list string) (* render_template('index.html', ...) *)
| SendFile (body : list byte).       (* send_file(..., 'combined_output.csv') *)

(** What a request leaves behind: the response, the messages flashed in
    order, and the file system. *)
Record outcome : Type := mkOutcome {
  resp : response;
  flashes : list message;
  disk : Os.fs
}.

(** One part of the multipart form: [file.filename] and the payload. *)
Record upload : Type := mkUpload {
  filename : string;
  stream : list byte
}.

Definition index (d : Os.fs) : outcome :=
  match Os.listdir d UPLOAD_FOLDER with
  | Ok names => mkOutcome (Page (filter allowed_file names)) [] d
  | Raise e => mkOutcome (Page []) [AccessError e] d
  end.

(** The state of the loop of [upload_files]. *)
Record upload_state : Type := mkUploadState {
  up_disk : Os.fs;
  up_flashes : list message;
  saved_files : list string
}.

(** The state of the parsing loop of [combine_csv]. *)
Record combine_state : Type := mkCombineState {
  dfs : list DataFrame;
  headers : option (list string);
  flashed : list message
}.

(** A loop body either falls through to the next file or returns from the
    handler with what was flashed so far. *)
Inductive step (S : Type) : Type :=
| Next (st : S)
| Return (msgs : list message).

Arguments Next {S} st.
Arguments Return {S} msgs.

Section Handlers.

Variable ascii_fold : string -> string.
Variable tokenize : list byte -> result (list string * list (list string)).

(** [df.to_csv(output, index=False, encoding='utf-8')] and [getvalue()] *)
Variable to_csv : DataFrame -> string.

Definition secure_filename : string -> string :=
  Werkzeug.secure_filename ascii_fold.

(** The body of the loop of [upload_files]. *)
Definition upload_one (st : upload_state) (file : upload) : upload_state :=
  let flash m := mkUploadState (up_disk st) (up_flashes st ++ [m]) (saved_files st) in
  if negb (filename file =? "") && allowed_file (filename file) then
    let filename := secure_filename (filename file) in
    let file_path := Os.path_join UPLOAD_FOLDER filename in
    let file_size := Z.of_nat (List.length (stream file)) in
    if (file_size =? 0)%Z then flash (UploadEmpty filename)
    else if (MAX_CONTENT_LENGTH <? file_size)%Z then flash (UploadTooLarge filename)
    else
      match Os.save (up_disk st) file_path (stream file) with
      | Raise e => flash (SaveFailed filename e)
      | Ok d1 =>
          if Os.path_exists d1 file_path then
            match Os.read_bytes d1 file_path with
            | Raise e =>
                mkUploadState d1 (up_flashes st ++ [SaveFailed filename e]) (saved_files st)
            | Ok content =>
                if is_nil content then
                  match Os.remove d1 file_path with
                  | Raise e =>
                      mkUploadState d1 (up_flashes st ++ [SaveFailed filename e]) (saved_files st)
                  | Ok d2 =>
                      mkUploadState d2 (up_flashes st ++ [SavedEmpty filename]) (saved_files st)
                  end
                else mkUploadState d1 (up_flashes st) (saved_files st ++ [filename])
            end
          else mkUploadState d1 (up_flashes st ++ [SaveMissing filename]) (saved_files st)
      end
  else flash (InvalidFile (filename file)).

(** [files] is [request.files.getlist('files')]; the key is absent from the
    request exactly when the list is empty. *)
Definition upload_files (d : Os.fs) (files : list upload) : outcome :=
  if is_nil files then mkOutcome Redirect [NoFilesSelected] d
  else if forallb (fun f => filename f =? "") files then
    mkOutcome Redirect [NoFilesSelected] d
  else
    let st := fold_left upload_one files (mkUploadState d [] []) in
    mkOutcome Redirect
      (up_flashes st ++
       [if is_nil (saved_files st) then NoneUploaded
        else Uploaded (List.length (saved_files st))])
      (up_disk st).

Definition remove_file (d : Os.fs) (filename : string) : outcome :=
  let file_path := Os.path_join UPLOAD_FOLDER (secure_filename filename) in
  if Os.path_exists d file_path then
    match Os.remove d file_path with
    | Ok d' => mkOutcome Redirect [Removed filename] d'
    | Raise e => mkOutcome Redirect [RemoveFailed filename e] d
    end
  else mkOutcome Redirect [RemoveNotFound filename] d.

(** The first loop of [combine_csv]: the paths of the listed files, or the
    name of the first one that is not there. *)
Fixpoint check_files (d : Os.fs) (uploaded_files : list string) : string + list string :=
  match uploaded_files with
  | [] => inr []
  | filename :: rest =>
      let file_path := Os.path_join UPLOAD_FOLDER filename in
      if Os.path_exists d file_path then
        match check_files d rest with
        | inr valid_files => inr (file_path :: valid_files)
        | inl missing => inl missing
        end
      else inl filename
  end.

(** The body of the parsing loop of [combine_csv]. *)
Definition parse_one (d : Os.fs) (st : combine_state) (file_path : string)
  : step combine_state :=
  let flash m := mkCombineState (dfs st) (headers st) (flashed st ++ [m]) in
  let name := Os.basename file_path in
  match Os.read_bytes d file_path with
  | Raise e => Return (flashed st ++ [ReadError name e])
  | Ok file_content =>
      if is_nil file_content then Next (flash (FileEmpty name))
      else
        match read_csv tokenize file_content false with
        | Raise e => Return (flashed st ++ [ReadError name e])
        | Ok df =>
            if empty df then Next (flash (EmptyOrInvalid name))
            else
              match headers st with
              | None =>
                  Next (mkCombineState (dfs st ++ [df]) (Some (columns df)) (flashed st))
              | Some h =>
                  if labels_eqb (columns df) h then
                    Next (mkCombineState (dfs st ++ [df]) (headers st) (flashed st))
                  else Return (flashed st ++ [HeaderMismatch])
              end
        end
  end.

Fixpoint parse_all (d : Os.fs) (st : combine_state) (valid_files : list string)
  : step combine_state :=
  match valid_files with
  | [] => Next st
  | file_path :: rest =>
      match parse_one d st file_path with
      | Next st' => parse_all d st' rest
      | Return msgs => Return msgs
      end
  end.

(** The deletion loop of [combine_csv]: a failure is logged and the loop
    goes on. *)
Fixpoint delete_all (d : Os.fs) (valid_files : list string) : Os.fs :=
  match valid_files with
  | [] => d
  | file_path :: rest =>
      match Os.remove d file_path with
      | Ok d' => delete_all d' rest
      | Raise _ => delete_all d rest
      end
  end.

Definition combine_csv (d : Os.fs) : outcome :=
  match Os.listdir d UPLOAD_FOLDER with
  | Raise e => mkOutcome Redirect [AccessError e] d
  | Ok names =>
      let uploaded_files := filter allowed_file names in
      if is_nil uploaded_files then mkOutcome Redirect [NoCsvFound] d
      else
        match check_files d uploaded_files with
        | inl missing => mkOutcome Redirect [FileNotFound missing] d
        | inr valid_files =>
            match parse_all d (mkCombineState [] None []) valid_files with
            | Return msgs => mkOutcome Redirect msgs d
            | Next st =>
                if is_nil (dfs st) then
                  mkOutcome Redirect (flashed st ++ [NoValidData]) d
                else
                  match concat (dfs st) with
                  | Raise e => mkOutcome Redirect (flashed st ++ [CombineError e]) d
                  | Ok combined_df =>
                      let csv_bytes := list_byte_of_string (to_csv combined_df) in
                      mkOutcome (SendFile csv_bytes) (flashed st)
                        (delete_all d valid_files)
                  end
            end
        end
  end.

End Handlers.

(** ** The writer behind [to_csv]

    [DataFrame.to_csv] hands the labels and then the records, each cell
    as text and the missing marker as the empty text ([na_rep]), to
    [csv.writer] with the delimiter [,], the quotation mark as quote
    character, [doublequote], [QUOTE_MINIMAL] and the line terminator of
    the platform, here the line feed. *)

Module Csv.

Definition LF : string := String "010" EmptyString.
Definition QUOTE : string := String "034" EmptyString.

Section Writer.

(** Whether a carriage return makes a field quoted although the line
    terminator holds none: [csv.writer] of Python 3.13 and later does so,
    the earlier ones do not. *)
Variable cr_special : bool.

Definition special (c : ascii) : bool :=
  Ascii.eqb c "," || Ascii.eqb c "034" || Ascii.eqb c "010"
  || (cr_special && Ascii.eqb c "013").

Definition needs_quote (field : string) : bool :=
  negb (string_forall (fun c => negb (special c)) field).

(** Every quotation mark is written twice. *)
Fixpoint escape (field : string) : string :=
  match field with
  | EmptyString => EmptyString
  | String c rest =>
      if Ascii.eqb c "034" then String c (String c (escape rest))
      else String c (escape rest)
  end.

Definition write_field (field : string) : string :=
  if needs_quote field then (QUOTE ++ escape field ++ QUOTE)%string else field.

(** [writer.writerow]: a record that would be written as nothing, one
    empty field, is written as a pair of quotation marks. *)
Definition write_row (fields : list string) : string :=
  match fields with
  | [EmptyString] => (QUOTE ++ QUOTE ++ LF)%string
  | _ => (join "," (map write_field fields) ++ LF)%string
  end.

Definition render (c : Pandas.cell) : string :=
  match c with
  | Pandas.Str s => s
  | Pandas.NaN => EmptyString
  end.

(** [df.to_csv(output, index=False, encoding='utf-8')] and [getvalue()] *)
Definition to_csv (df : DataFrame) : string :=
  String.concat "" (map write_row (columns df :: map (map render) (rows df))).

End Writer.

End Csv.

(** ** The request limit

    [app.config['MAX_CONTENT_LENGTH']] makes Flask refuse a request whose
    [Content-Length] is above the limit: reading [request.files], the
    first thing [upload_files] does, raises [RequestEntityTooLarge], and
    the client gets status 413. *)

Record request : Type := mkRequest {
  req_length : Z;
  req_files : list upload
}.

Definition payload_total (parts : list upload) : Z :=
  fold_right (fun f n => (Z.of_nat (List.length (stream f)) + n)%Z) 0%Z parts.

(** The body of a multipart request holds the payloads of its parts
    between boundary lines and part headers: it is longer than the
    payloads together. *)
Definition framed (rq : request) : Prop :=
  (payload_total (req_files rq) < req_length rq)%Z.

(** [POST /upload]: [None] is the answer 413, given before anything else
    happens. *)
Definition post_upload (ascii_fold : string -> string) (d : Os.fs) (rq : request)
  : option outcome :=
  if (MAX_CONTENT_LENGTH <? req_length rq)%Z then None
  else Some (upload_files ascii_fold d (req_files rq)).

(** ** A plain dialect for the parameters

    Records end at a line feed and fields at a comma; nothing is quoted.
    It instantiates the tokenizer and the writer wherever a property is
    evaluated on a concrete storage area, and is meant for texts on which
    it does what pandas does: ASCII text without quotation marks and
    carriage returns, under a header of distinct, non-empty labels. *)

Module Plain.

Definition LF : string := String "010" EmptyString.

(** Blank lines are skipped, as [skip_blank_lines] has it. *)
Definition lines (text : string) : list string :=
  filter (fun l => negb (l =? "")) (split_on "010" text).

Fixpoint pad (n : nat) (fields : list string) : list string :=
  match n, fields with
  | O, _ => []
  | S n', [] => "" :: pad n' []
  | S n', f :: fields' => f :: pad n' fields'
  end.

(** The first record fixes the width of the table: a record never read
    as too long, it is filled up to the header when shorter, and what it
    has beyond the header are leading index columns, which
    [combine_csv] drops ([ignore_index], [index=False]).  A later record
    is filled up to that width, and is an error when longer. *)
Definition tokenize (content : list byte) : result (list string * list (list string)) :=
  match lines (string_of_list_byte content) with
  | [] => Raise (ParserError "No columns to parse from file")
  | first :: rest =>
      let header := split_on "," first in
      let records := map (split_on ",") rest in
      let width :=
        match records with
        | [] => List.length header
        | r :: _ => Nat.max (List.length header) (List.length r)
        end in
      if forallb (fun r => Nat.leb (List.length r) width) records then
        Ok (header,
            map (fun r => skipn (width - List.length header) (pad width r)) records)
      else Raise (ParserError "Error tokenizing data")
  end.

Definition render (c : cell) : string :=
  match c with
  | Str s => s
  | NaN => ""
  end.

Definition to_csv (df : DataFrame) : string :=
  String.concat "" (map (fun fields => (join "," fields ++ LF)%string)
                        (columns df :: map (map render) (rows df))).

Definition uploads : Os.path * Os.node := ((false, [UPLOAD_FOLDER]), Os.Dir).

(** A staged file [uploads/name] holding [text]. *)
Definition staged (name text : string) : Os.path * Os.node :=
  ((false, [UPLOAD_FOLDER; name]), Os.File false (list_byte_of_string text)).

(** The same, with the immutable attribute set. *)
Definition pinned (name text : string) : Os.path * Os.node :=
  ((false, [UPLOAD_FOLDER; name]), Os.File true (list_byte_of_string text)).

Definition combine : Os.fs -> outcome := combine_csv tokenize to_csv.

Definition upload : Os.fs -> list upload -> outcome :=
  upload_files Werkzeug.ascii_only.

Definition remove : Os.fs -> string -> outcome :=
  remove_file Werkzeug.ascii_only.

(** The body of a download as text, for reading. *)
Definition body_text (o : outcome) : option string :=
  match resp o with
  | SendFile body => Some (string_of_list_byte body)
  | _ => None
  end.

End Plain.

Definition A_csv := Plain.staged "A.csv" ("a,b" ++ Plain.LF ++ "1,2" ++ Plain.LF)%string.
Definition B_csv := Plain.staged "B.csv" ("a,b" ++ Plain.LF ++ "3,4" ++ Plain.LF)%string.
Definition C_csv := Plain.staged "C.csv" ("a,c" ++ Plain.LF ++ "5,6" ++ Plain.LF)%string.
Definition H_csv := Plain.staged "H.csv" ("a,b" ++ Plain.LF)%string.
Definition E_csv := Plain.staged "E.csv" "".
Definition M_csv := Plain.staged "M.csv" ("a,b" ++ Plain.LF ++ "1,2,3" ++ Plain.LF)%string.
Definition N_csv := Plain.staged "N.csv" Plain.LF.
Definition my_data_part : upload :=
  mkUpload "my data.CSV"
    (list_byte_of_string ("a,b" ++ Plain.LF ++ "1,2" ++ Plain.LF)%string).
Definition L_csv := Plain.staged "L.csv" ("a,b" ++ Plain.LF ++ "1,2" ++ Plain.LF ++ "1,2,3" ++ Plain.LF)%string.
Definition frame_A : DataFrame := mkFrame ["a"; "b"] [[Str "1"; Str "2"]].
Definition frame_B : DataFrame := mkFrame ["a"; "b"] [[Str "3"; Str "4"]].
Definition frame_C : DataFrame := mkFrame ["a"; "c"] [[Str "5"; Str "6"]].

Definition P_csv := Plain.pinned "P.csv" ("a,b" ++ Plain.LF ++ "9,9" ++ Plain.LF)%string.
Definition notes_txt := Plain.staged "notes.txt" "remember".
Definition etc_passwd : Os.path * Os.node :=
  ((true, ["etc"; "passwd"]), Os.File false (list_byte_of_string "root")).

Ltac each_listed H :=
  repeat (destruct H as [<-|H]; [vm_compute; try discriminate; try reflexivity|]);
  try destruct H.

(** ** Vocabulary of the properties *)

(** The path [combine_csv] and [upload_files] build for a name. *)
Definition staged_path (filename : string) : string :=
  Os.path_join UPLOAD_FOLDER filename.

(** What becomes of one file in the parsing loop, told without the loop. *)
Inductive status : Type :=
| Skipped (warning : message)
| Accepted (df : DataFrame)
| Failed (e : exn).

Section Vocabulary.

Variable tokenize : list byte -> result (list string * list (list string)).

Definition status_of (d : Os.fs) (file_path : string) : status :=
  match Os.read_bytes d file_path with
  | Raise e => Failed e
  | Ok content =>
      match content with
      | [] => Skipped (FileEmpty (Os.basename file_path))
      | _ :: _ =>
          match read_csv tokenize content false with
          | Raise e => Failed e
          | Ok df =>
              match columns df, rows df with
              | _ :: _, _ :: _ => Accepted df
              | _, _ => Skipped (EmptyOrInvalid (Os.basename file_path))
              end
          end
      end
  end.

(** The frames of the files that are neither skipped nor failing, in the
    order of the files. *)
Definition accepted (d : Os.fs) (paths : list string) : list DataFrame :=
  flat_map (fun p => match status_of d p with Accepted df => [df] | _ => [] end) paths.

(** The warnings of the files that are skipped, in the order of the files. *)
Definition warnings (d : Os.fs) (paths : list string) : list message :=
  flat_map (fun p => match status_of d p with Skipped w => [w] | _ => [] end) paths.

(** Every file can be read and, unless it has no content, parsed. *)
Definition all_parse (d : Os.fs) (paths : list string) : Prop :=
  forall p, In p paths -> forall e, status_of d p <> Failed e.

End Vocabulary.



(** The download, if the response is one. *)
Definition body (o : outcome) : option (list byte) :=
  match resp o with
  | SendFile b => Some b
  | _ => None
  end.

(** The same tree with the immutable attribute cleared everywhere. *)
Definition thaw_node (n : Os.node) : Os.node :=
  match n with
  | Os.File _ content => Os.File false content
  | Os.Dir => Os.Dir
  end.

Definition thaw (d : Os.fs) : Os.fs :=
  map (fun e => (fst e, thaw_node (snd e))) d.

(** A name that stands for itself as a path component. *)
Definition plain_name (s : string) : Prop :=
  s <> "" /\ s <> "." /\ s <> ".." /\
  string_forall (fun c => negb (Ascii.eqb c "/")) s = true.

(** The entries of the storage area are relative paths of plain names. *)
Definition tidy (d : Os.fs) : Prop :=
  forall k n, In (k, n) d -> fst k = false /\ Forall plain_name (snd k).

(** The two kinds of messages [combine_csv] flashes: the warning of a
    skipped file, and the reason of an abort. *)
Definition is_warning (m : message) : bool :=
  match m with
  | FileEmpty _ | EmptyOrInvalid _ => true
  | _ => false
  end.

Definition is_abort (m : message) : bool :=
  match m with
  | AccessError _ | NoCsvFound | FileNotFound _ | ReadError _ _
  | HeaderMismatch | NoValidData => true
  | _ => false
  end.

(** The entry under which [upload_files] and [remove_file] keep the file
    of a sanitized name. *)
Definition staged_key (name : string) : Os.path := (false, [UPLOAD_FOLDER; name]).

(** A part that passes the checks [upload_files] itself makes before the
    save; the limit Flask puts on the whole request is [post_upload]. *)
Definition acceptable (file : upload) : Prop :=
  allowed_file (filename file) = true /\
  stream file <> [] /\
  (Z.of_nat (List.length (stream file)) <= MAX_CONTENT_LENGTH)%Z.

(** * Properties *)

Unset Implicit Arguments.

(** ** The embedding on the examples of the libraries *)

Example allowed_file_examples :
  allowed_file "report.csv" = true /\
  allowed_file "REPORT.CsV" = true /\
  allowed_file ".csv" = true /\
  allowed_file "report.csv.txt" = false /\
  allowed_file "csv" = false /\
  allowed_file "report." = false /\
  allowed_file "" = false.
Proof.
  repeat split.
Qed.

Example secure_filename_examples :
  Werkzeug.secure_filename Werkzeug.ascii_only "My cool movie.mov" = "My_cool_movie.mov" /\
  Werkzeug.secure_filename Werkzeug.ascii_only "../../../etc/passwd" = "etc_passwd" /\
  Werkzeug.secure_filename Werkzeug.ascii_only ".." = "" /\
  Werkzeug.secure_filename Werkzeug.ascii_only "__a  b/..c._" = "a_b_..c".
Proof.
  repeat split.
Qed.

Example path_examples :
  Os.path_join "uploads" "a.csv" = "uploads/a.csv" /\
  Os.path_join "uploads" "" = "uploads/" /\
  Os.path_join "uploads" "/etc/passwd" = "/etc/passwd" /\
  Os.basename "uploads/a.csv" = "a.csv" /\
  Os.resolve "uploads/../etc/./passwd" = (false, ["etc"; "passwd"]) /\
  Os.resolve "uploads/" = (false, ["uploads"]).
Proof.
  repeat split.
Qed.

(** ** The file system *)

Lemma path_eqb_refl (k : Os.path) : Os.path_eqb k k = true.
Proof.
  unfold Os.path_eqb. destruct (Os.path_eq_dec k k); congruence.
Qed.

Lemma lookup_unlink (k k' : Os.path) (d : Os.fs) :
  Os.lookup k (Os.unlink k' d) =
  if Os.path_eq_dec k k' then None else Os.lookup k d.
Proof.
  induction d as [|[k0 n0] d IH]; simpl.
  - destruct (Os.path_eq_dec k k'); reflexivity.
  - unfold Os.path_eqb. destruct (Os.path_eq_dec k' k0) as [E|N]; simpl.
    + rewrite IH. destruct (Os.path_eq_dec k k') as [E'|N']; [reflexivity|].
      destruct (Os.path_eq_dec k k0); congruence.
    + rewrite IH. destruct (Os.path_eq_dec k k0) as [E0|N0].
      * destruct (Os.path_eq_dec k k'); congruence.
      * reflexivity.
Qed.

Lemma lookup_store (k k' : Os.path) (n : Os.node) (d : Os.fs) :
  Os.lookup k (Os.store k' n d) =
  if Os.path_eq_dec k k' then Some n else Os.lookup k d.
Proof.
  induction d as [|[k0 n0] d IH]; simpl.
  - destruct (Os.path_eq_dec k k'); reflexivity.
  - destruct (Os.path_eq_dec k' k0) as [E|N]; simpl.
    + subst k0. destruct (Os.path_eq_dec k k'); reflexivity.
    + rewrite IH. destruct (Os.path_eq_dec k k0) as [E0|N0].
      * destruct (Os.path_eq_dec k k'); congruence.
      * reflexivity.
Qed.

(** [os.remove] takes one key out of the tree and nothing else. *)
Lemma remove_lookup (d d' : Os.fs) (p : string) (k : Os.path) :
  Os.remove d p = Ok d' ->
  Os.lookup k d' = if Os.path_eq_dec k (Os.resolve p) then None else Os.lookup k d.
Proof.
  unfold Os.remove. destruct (Os.stat d p) as [[[|] c|]|e]; try discriminate.
  intros H. injection H as <-. apply lookup_unlink.
Qed.

(** [os.remove] succeeds on regular files without the immutable attribute
    only. *)
Lemma remove_ok_inv (d d' : Os.fs) (p : string) :
  Os.remove d p = Ok d' ->
  exists c, Os.stat d p = Ok (Os.File false c) /\
            Os.lookup (Os.resolve p) d = Some (Os.File false c).
Proof.
  unfold Os.remove. destruct (Os.stat d p) as [[[|] c|]|e] eqn:S; try discriminate.
  intros _. exists c. split; [reflexivity|].
  unfold Os.stat in S. destruct (p =? ""); [discriminate|].
  destruct (Os.lookup (Os.resolve p) d) as [[i c'|]|]; try discriminate.
  destruct (Os.ends_with_sep p); [discriminate|]. congruence.
Qed.

Lemma stat_lookup (d : Os.fs) (p : string) (n : Os.node) :
  Os.stat d p = Ok n -> Os.lookup (Os.resolve p) d = Some n.
Proof.
  unfold Os.stat. destruct (p =? ""); [discriminate|].
  destruct (Os.lookup (Os.resolve p) d) as [[i c|]|]; try discriminate.
  - destruct (Os.ends_with_sep p); congruence.
  - congruence.
Qed.

(** Two trees that agree at the key of [p] answer [stat p] alike. *)
Lemma stat_agree (d1 d2 : Os.fs) (p : string) :
  Os.lookup (Os.resolve p) d1 = Os.lookup (Os.resolve p) d2 ->
  Os.stat d1 p = Os.stat d2 p.
Proof.
  unfold Os.stat. intros ->. reflexivity.
Qed.

Section Properties.

Variable ascii_fold : string -> string.
Variable tokenize : list byte -> result (list string * list (list string)).
Variable to_csv : DataFrame -> string.


(** ** The two loops before the success point *)

Lemma check_files_inr (d : Os.fs) (files valid : list string) :
  check_files d files = inr valid ->
  valid = map staged_path files /\
  forall f, In f files -> Os.path_exists d (staged_path f) = true.
Proof.
  revert valid. induction files as [|f files IH]; simpl; intros valid H.
  - injection H as <-. split; [reflexivity | intros f []].
  - fold (staged_path f) in H.
    destruct (Os.path_exists d (staged_path f)) eqn:E; [|discriminate].
    destruct (check_files d files) as [m|v]; [discriminate|].
    injection H as <-. destruct (IH v eq_refl) as [-> IH2].
    split; [reflexivity|]. intros g [<-|G]; auto.
Qed.

Lemma check_files_all (d : Os.fs) (files : list string) :
  (forall f, In f files -> Os.path_exists d (staged_path f) = true) ->
  check_files d files = inr (map staged_path files).
Proof.
  induction files as [|f files IH]; simpl; intros H; [reflexivity|].
  fold (staged_path f). rewrite (H f (or_introl eq_refl)).
  rewrite IH; [reflexivity|]. intros g G. apply H. now right.
Qed.

(** The loop body does to a file what its status says. *)
Lemma parse_one_status (d : Os.fs) (st : combine_state) (p : string) :
  parse_one tokenize d st p =
  match status_of tokenize d p with
  | Failed e => Return (flashed st ++ [ReadError (Os.basename p) e])
  | Skipped w => Next (mkCombineState (dfs st) (headers st) (flashed st ++ [w]))
  | Accepted df =>
      match headers st with
      | None => Next (mkCombineState (dfs st ++ [df]) (Some (columns df)) (flashed st))
      | Some h =>
          if labels_eqb (columns df) h
          then Next (mkCombineState (dfs st ++ [df]) (headers st) (flashed st))
          else Return (flashed st ++ [HeaderMismatch])
      end
  end.
Proof.
  unfold parse_one, status_of.
  destruct (Os.read_bytes d p) as [[|b c]|e]; simpl; try reflexivity.
  destruct (read_csv tokenize (b :: c) false) as [df|e]; [|reflexivity].
  destruct df as [[|c0 cs] [|r0 rs]]; reflexivity.
Qed.

Lemma parse_all_app (d : Os.fs) (l1 l2 : list string) (st : combine_state) :
  parse_all tokenize d st (l1 ++ l2) =
  match parse_all tokenize d st l1 with
  | Next st' => parse_all tokenize d st' l2
  | Return msgs => Return msgs
  end.
Proof.
  revert st. induction l1 as [|p l1 IH]; simpl; intros st; [reflexivity|].
  destruct (parse_one tokenize d st p); [apply IH | reflexivity].
Qed.

Lemma labels_eqb_refl (h : list string) : labels_eqb h h = true.
Proof.
  unfold labels_eqb. destruct (list_eq_dec string_dec h h); congruence.
Qed.

Lemma labels_eqb_eq (a b : list string) : labels_eqb a b = true <-> a = b.
Proof.
  unfold labels_eqb. destruct (list_eq_dec string_dec a b); split; congruence.
Qed.

(** When every file parses and the accepted frames carry the labels [h],
    the loop runs to its end and has collected the accepted frames in the
    order of the files. *)
Lemma parse_all_ok (d : Os.fs) (h : list string) (paths : list string) :
  forall st,
  all_parse tokenize d paths ->
  (forall df, In df (accepted tokenize d paths) -> columns df = h) ->
  headers st = None \/ headers st = Some h ->
  parse_all tokenize d st paths =
  Next (mkCombineState (dfs st ++ accepted tokenize d paths)
          (match accepted tokenize d paths with [] => headers st | _ :: _ => Some h end)
          (flashed st ++ warnings tokenize d paths)).
Proof.
  induction paths as [|p paths IH]; intros st Hall Hcols Hh.
  - simpl. rewrite !app_nil_r. destruct st; reflexivity.
  - assert (Hall' : all_parse tokenize d paths) by (intros q Q; apply Hall; now right).
    pose proof (Hall p (or_introl eq_refl)) as Hp.
    cbn [parse_all]. rewrite parse_one_status.
    unfold accepted, warnings in *. cbn [flat_map] in *.
    destruct (status_of tokenize d p) as [w|df|e] eqn:S.
    + rewrite IH; auto. cbn. rewrite <- app_assoc. reflexivity.
    + assert (Hdf : columns df = h) by (apply Hcols; now left).
      assert (Hrest : forall x, In x (flat_map (fun p0 => match status_of tokenize d p0 with
                 | Accepted df0 => [df0] | _ => [] end) paths) -> columns x = h)
        by (intros x X; apply Hcols; apply in_or_app; now right).
      destruct Hh as [Hh|Hh]; rewrite Hh.
      * rewrite IH; auto; [|cbn; right; congruence].
        cbn. rewrite <- app_assoc. cbn. rewrite Hdf.
        destruct (flat_map _ paths); reflexivity.
      * rewrite Hdf, labels_eqb_refl. rewrite IH; auto.
        cbn. rewrite <- app_assoc. cbn.
        destruct (flat_map _ paths); reflexivity.
    + exfalso. exact (Hp e eq_refl).
Qed.

(** Conversely, a loop that ran to its end met no failing file, and every
    frame it accepted carries the labels it ended with. *)
Lemma parse_all_inv (d : Os.fs) (paths : list string) :
  forall st st',
  parse_all tokenize d st paths = Next st' ->
  all_parse tokenize d paths /\
  dfs st' = dfs st ++ accepted tokenize d paths /\
  flashed st' = flashed st ++ warnings tokenize d paths /\
  (forall df, In df (accepted tokenize d paths) -> headers st' = Some (columns df)) /\
  (forall h, headers st = Some h -> headers st' = Some h) /\
  (accepted tokenize d paths = [] -> headers st' = headers st).
Proof.
  induction paths as [|p paths IH]; intros st st' H.
  - cbn in H. injection H as <-. cbn. rewrite !app_nil_r.
    repeat split; auto; try (intros ? []).
  - cbn [parse_all] in H. rewrite parse_one_status in H.
    unfold accepted, warnings, all_parse in *.
    cbn [flat_map].
    destruct (status_of tokenize d p) as [w|df|e] eqn:S; [| |discriminate].
    + destruct (IH _ _ H) as (A & B & C & D & E & F). cbn in *.
      repeat split; auto.
      * intros q [<-|Q]; [rewrite S; discriminate | now apply A].
      * rewrite C, <- app_assoc. reflexivity.
    + destruct (headers st) as [h|] eqn:Hh.
      * destruct (labels_eqb (columns df) h) eqn:L; [|discriminate].
        apply labels_eqb_eq in L.
        destruct (IH _ _ H) as (A & B & C & D & E & F). cbn in *.
        repeat split; auto; try discriminate;
          first [ intros q [<-|Q]; [rewrite S; discriminate | now apply A]
                | rewrite B, <- app_assoc; reflexivity
                | intros x [<-|X]; [|now apply D]; rewrite L; now apply E
                | intros h' Hh'; apply E; congruence ].
      * destruct (IH _ _ H) as (A & B & C & D & E & F). cbn in *.
        repeat split; auto; try discriminate;
          first [ intros q [<-|Q]; [rewrite S; discriminate | now apply A]
                | rewrite B, <- app_assoc; reflexivity
                | intros x [<-|X]; [|now apply D]; now apply E ].
Qed.

Lemma is_nil_middle (A : Type) (pre : list A) (x : A) (post : list A) :
  is_nil (pre ++ x :: post) = false.
Proof.
  destruct pre; reflexivity.
Qed.

Lemma concat_same_labels (df0 : DataFrame) (more : list DataFrame) :
  (forall x, In x more -> columns x = columns df0) ->
  concat (df0 :: more) = Ok (mkFrame (columns df0) (flat_map rows (df0 :: more))).
Proof.
  intros H. unfold concat.
  replace (forallb (fun x => labels_eqb (columns x) (columns df0)) more) with true;
    [reflexivity|].
  symmetry. apply forallb_forall. intros x X. apply labels_eqb_eq. now apply H.
Qed.

(** A file whose status is not a failure is there. *)
Lemma status_exists (d : Os.fs) (p : string) :
  (forall e, status_of tokenize d p <> Failed e) -> Os.path_exists d p = true.
Proof.
  unfold status_of, Os.read_bytes, Os.path_exists.
  destruct (Os.stat d p) as [n|e]; [reflexivity|].
  intros H. exfalso. exact (H e eq_refl).
Qed.

Lemma all_parse_exist (d : Os.fs) (files : list string) :
  all_parse tokenize d (map staged_path files) ->
  forall f, In f files -> Os.path_exists d (staged_path f) = true.
Proof.
  intros H f F. apply status_exists. apply H. now apply in_map.
Qed.

Lemma all_parse_app (d : Os.fs) (l1 l2 : list string) :
  all_parse tokenize d l1 -> all_parse tokenize d l2 ->
  all_parse tokenize d (l1 ++ l2).
Proof.
  intros H1 H2 p P. apply in_app_or in P as [P|P]; auto.
Qed.

(** The outcome of the parsing loop on a prefix of the listing all of whose
    files parse, with the accepted frames under the labels [h]. *)
Lemma parse_prefix (d : Os.fs) (h : list string) (pre : list string) :
  all_parse tokenize d (map staged_path pre) ->
  (forall x, In x (accepted tokenize d (map staged_path pre)) -> columns x = h) ->
  parse_all tokenize d (mkCombineState [] None []) (map staged_path pre) =
  Next (mkCombineState (accepted tokenize d (map staged_path pre))
          (match accepted tokenize d (map staged_path pre) with
           | [] => None
           | _ :: _ => Some h
           end)
          (warnings tokenize d (map staged_path pre))).
Proof.
  intros Hall Hcols.
  rewrite (parse_all_ok d h (map staged_path pre) (mkCombineState [] None []));
    auto.
Qed.

(** ** The claims about [combine_csv] *)

(** C7.  When the listing of the storage area holds no name with the
    accepted extension, [combine_csv] fails with the message that no CSV
    files were found: the response is the redirect, there is no download,
    and the file system is left as it was. *)
Theorem no_files_found (d : Os.fs) (names : list string) :
  Os.listdir d UPLOAD_FOLDER = Ok names ->
  filter allowed_file names = [] ->
  combine_csv tokenize to_csv d = mkOutcome Redirect [NoCsvFound] d.
Proof.
  intros L F. unfold combine_csv. rewrite L, F. reflexivity.
Qed.

(** Sufficient for the success point: every listed file parses, some
    frame is accepted, and the accepted frames carry the labels [h]. *)
Lemma combine_success (d : Os.fs) (names : list string) (h : list string) :
  Os.listdir d UPLOAD_FOLDER = Ok names ->
  all_parse tokenize d (map staged_path (filter allowed_file names)) ->
  accepted tokenize d (map staged_path (filter allowed_file names)) <> [] ->
  (forall df, In df (accepted tokenize d (map staged_path (filter allowed_file names))) ->
     columns df = h) ->
  combine_csv tokenize to_csv d =
  mkOutcome
    (SendFile (list_byte_of_string
       (to_csv (mkFrame h (flat_map rows
          (accepted tokenize d (map staged_path (filter allowed_file names))))))))
    (warnings tokenize d (map staged_path (filter allowed_file names)))
    (delete_all d (map staged_path (filter allowed_file names))).
Proof.
  intros L Hall Hacc Hcols. unfold combine_csv. rewrite L.
  destruct (filter allowed_file names) as [|f files] eqn:F;
    [exfalso; now apply Hacc|].
  cbn [is_nil]. rewrite check_files_all by (now apply all_parse_exist).
  rewrite (parse_prefix d h); auto.
  destruct (accepted tokenize d (map staged_path (f :: files))) as [|df0 more] eqn:A;
    [exfalso; now apply Hacc|].
  cbn [dfs is_nil flashed].
  assert (H0 : columns df0 = h) by (apply Hcols; now left).
  rewrite concat_same_labels, H0; [reflexivity|].
  intros x X. rewrite H0. apply Hcols. now right.
Qed.

(** C1 (as amended).  When every listed file can be read and, unless it
    has no content, parsed, when at least one of them has a data row, and
    when the frames with data rows carry identical headers, [combine_csv]
    succeeds: the download is the serialization of the frame whose header
    is that of the first such file and whose rows are the rows of all of
    them, file after file in listing order and row after row within each
    file.  The warnings of the skipped files are flashed and the listed
    files go through the deletion loop. *)
Theorem combine_concatenates (d : Os.fs) (names : list string)
    (df0 : DataFrame) (more : list DataFrame) :
  Os.listdir d UPLOAD_FOLDER = Ok names ->
  all_parse tokenize d (map staged_path (filter allowed_file names)) ->
  accepted tokenize d (map staged_path (filter allowed_file names)) = df0 :: more ->
  (forall df, In df more -> columns df = columns df0) ->
  combine_csv tokenize to_csv d =
  mkOutcome
    (SendFile (list_byte_of_string
                 (to_csv (mkFrame (columns df0) (flat_map rows (df0 :: more))))))
    (warnings tokenize d (map staged_path (filter allowed_file names)))
    (delete_all d (map staged_path (filter allowed_file names))).
Proof.
  intros L Hall Hacc Hcols.
  rewrite (combine_success d names (columns df0)); auto.
  - rewrite Hacc. reflexivity.
  - rewrite Hacc. discriminate.
  - rewrite Hacc. intros x [<-|X]; auto.
Qed.

(** C2.  When the parsing loop reaches a file that parses to a frame with
    data rows whose header is not list-equal to the reference header (the
    header of the first file with data rows, [df0]), [combine_csv] aborts
    with the header-mismatch message: the response is the redirect, there
    is no download, and the file system is left as it was.  That the loop
    reaches the file is said by the files before it: each of them parses,
    and those with data rows agree with the reference header; the files
    after it are still there when the listing is checked. *)
Theorem header_mismatch_aborts (d : Os.fs) (names pre : list string) (f : string)
    (post : list string) (df0 : DataFrame) (more : list DataFrame) (df : DataFrame) :
  Os.listdir d UPLOAD_FOLDER = Ok names ->
  filter allowed_file names = pre ++ f :: post ->
  (forall g, In g post -> Os.path_exists d (staged_path g) = true) ->
  all_parse tokenize d (map staged_path pre) ->
  accepted tokenize d (map staged_path pre) = df0 :: more ->
  (forall x, In x more -> columns x = columns df0) ->
  status_of tokenize d (staged_path f) = Accepted df ->
  columns df <> columns df0 ->
  combine_csv tokenize to_csv d =
  mkOutcome Redirect
    (warnings tokenize d (map staged_path pre) ++ [HeaderMismatch]) d.
Proof.
  intros L F Hpost Hall Hacc Hcols Hf Hne. unfold combine_csv. rewrite L, F.
  rewrite is_nil_middle.
  rewrite check_files_all.
  - rewrite map_app, parse_all_app. rewrite (parse_prefix d (columns df0)); auto.
    + rewrite Hacc. cbn [map parse_all]. rewrite parse_one_status, Hf.
      cbn [headers flashed].
      destruct (labels_eqb (columns df) (columns df0)) eqn:Q; [|reflexivity].
      apply labels_eqb_eq in Q. contradiction.
    + rewrite Hacc. intros y [<-|Y]; auto.
  - intros g G. apply in_app_or in G as [G|[<-|G]].
    + now apply (all_parse_exist _ _ Hall).
    + apply status_exists. intros e. rewrite Hf. discriminate.
    + now apply Hpost.
Qed.

(** C4.  When the parsing loop reaches a file with content whose parse
    raises, [combine_csv] aborts with the read-error message naming that
    file (the base name of its path): the response is the redirect, there
    is no download, and the file system is left as it was.  That the loop
    reaches the file is said by the files before it: each of them parses,
    and those with data rows carry one header; the files after it are
    still there when the listing is checked. *)
Theorem parse_error_aborts (d : Os.fs) (names pre : list string) (f : string)
    (post : list string) (h : list string) (content : list byte) (e : exn) :
  Os.listdir d UPLOAD_FOLDER = Ok names ->
  filter allowed_file names = pre ++ f :: post ->
  (forall g, In g post -> Os.path_exists d (staged_path g) = true) ->
  all_parse tokenize d (map staged_path pre) ->
  (forall x, In x (accepted tokenize d (map staged_path pre)) -> columns x = h) ->
  Os.read_bytes d (staged_path f) = Ok content ->
  content <> [] ->
  read_csv tokenize content false = Raise e ->
  combine_csv tokenize to_csv d =
  mkOutcome Redirect
    (warnings tokenize d (map staged_path pre)
     ++ [ReadError (Os.basename (staged_path f)) e]) d.
Proof.
  intros L F Hpost Hall Hcols Hr Hc He. unfold combine_csv. rewrite L, F.
  rewrite is_nil_middle.
  assert (Hf : status_of tokenize d (staged_path f) = Failed e).
  { unfold status_of. rewrite Hr. destruct content; [contradiction|].
    rewrite He. reflexivity. }
  rewrite check_files_all.
  - rewrite map_app, parse_all_app. rewrite (parse_prefix d h); auto.
    cbn [map parse_all]. rewrite parse_one_status, Hf. reflexivity.
  - intros g G. apply in_app_or in G as [G|[<-|G]].
    + now apply (all_parse_exist _ _ Hall).
    + unfold Os.path_exists. unfold Os.read_bytes in Hr.
      destruct (Os.stat d (staged_path f)); [reflexivity | discriminate].
    + now apply Hpost.
Qed.





(** ** The success point and the deletion loop *)

(** What a download tells about the run that produced it: the listing was
    read, every listed file was there and parsed, at least one frame was
    accepted, all accepted frames carry the labels [h], and the download
    is the serialization of their rows under [h]. *)
Lemma combine_success_inv (d : Os.fs) (b : list byte) :
  resp (combine_csv tokenize to_csv d) = SendFile b ->
  exists names h,
    let paths := map staged_path (filter allowed_file names) in
    Os.listdir d UPLOAD_FOLDER = Ok names /\
    (forall f, In f (filter allowed_file names) ->
       Os.path_exists d (staged_path f) = true) /\
    all_parse tokenize d paths /\
    accepted tokenize d paths <> [] /\
    (forall df, In df (accepted tokenize d paths) -> columns df = h) /\
    b = list_byte_of_string
          (to_csv (mkFrame h (flat_map rows (accepted tokenize d paths)))) /\
    flashes (combine_csv tokenize to_csv d) = warnings tokenize d paths /\
    disk (combine_csv tokenize to_csv d) = delete_all d paths.
Proof.
  unfold combine_csv.
  destruct (Os.listdir d UPLOAD_FOLDER) as [names|e] eqn:L; [|discriminate].
  destruct (is_nil (filter allowed_file names)) eqn:N; [discriminate|].
  destruct (check_files d (filter allowed_file names)) as [m|valid] eqn:C;
    [discriminate|].
  apply check_files_inr in C as [-> Hex].
  destruct (parse_all tokenize d (mkCombineState [] None [])
              (map staged_path (filter allowed_file names))) as [st|m] eqn:P;
    [|discriminate].
  apply parse_all_inv in P as (Hall & Hdfs & Hfl & Hhd & _ & _).
  cbn [dfs flashed app] in Hdfs, Hfl.
  destruct (is_nil (dfs st)) eqn:N2; [discriminate|].
  destruct (dfs st) as [|df0 more] eqn:D; [discriminate|].
  assert (Hcols : forall df, In df (df0 :: more) -> columns df = columns df0).
  { intros df Hin. rewrite Hdfs in Hin.
    pose proof (Hhd df Hin) as H1.
    assert (H0 : In df0 (accepted tokenize d
                (map staged_path (filter allowed_file names))))
      by (rewrite <- Hdfs; now left).
    pose proof (Hhd df0 H0) as H2. congruence. }
  rewrite concat_same_labels by (intros x X; apply Hcols; now right).
  cbn [resp flashes disk]. intros H. injection H as <-.
  exists names, (columns df0). cbn zeta. rewrite <- Hdfs.
  repeat split; auto; discriminate.
Qed.

Lemma delete_all_none (k : Os.path) (paths : list string) :
  forall d, Os.lookup k d = None -> Os.lookup k (delete_all d paths) = None.
Proof.
  induction paths as [|q paths IH]; intros d H; cbn; [exact H|].
  destruct (Os.remove d q) as [d'|e] eqn:R; [|now apply IH].
  apply IH. rewrite (remove_lookup _ _ _ _ R).
  destruct (Os.path_eq_dec k (Os.resolve q)); [reflexivity | exact H].
Qed.

(** The deletion loop leaves alone what is not one of its paths. *)
Lemma delete_all_other (k : Os.path) (paths : list string) :
  forall d,
  (forall p, In p paths -> k <> Os.resolve p) ->
  Os.lookup k (delete_all d paths) = Os.lookup k d.
Proof.
  induction paths as [|q paths IH]; intros d H; cbn; [reflexivity|].
  assert (H' : forall p, In p paths -> k <> Os.resolve p)
    by (intros p P; apply H; now right).
  destruct (Os.remove d q) as [d'|e] eqn:R; [|now apply IH].
  rewrite IH by assumption. rewrite (remove_lookup _ _ _ _ R).
  destruct (Os.path_eq_dec k (Os.resolve q)) as [E|N]; [|reflexivity].
  exfalso. apply (H q); [now left | exact E].
Qed.

(** The deletion loop leaves alone what [os.remove] refuses. *)
Lemma delete_all_kept (k : Os.path) (n : Os.node) (paths : list string) :
  (forall c, n <> Os.File false c) ->
  forall d, Os.lookup k d = Some n -> Os.lookup k (delete_all d paths) = Some n.
Proof.
  intros Hn. induction paths as [|q paths IH]; intros d H; cbn; [exact H|].
  destruct (Os.remove d q) as [d'|e] eqn:R; [|now apply IH].
  apply IH. rewrite (remove_lookup _ _ _ _ R).
  destruct (Os.path_eq_dec k (Os.resolve q)) as [E|N]; [|exact H].
  apply remove_ok_inv in R as (c & _ & Hl). subst k.
  exfalso. apply (Hn c). congruence.
Qed.

(** The deletion loop deletes every path that [os.remove] accepts. *)
Lemma delete_all_gone (p : string) (paths : list string) :
  forall d c,
  In p paths -> Os.stat d p = Ok (Os.File false c) ->
  Os.lookup (Os.resolve p) (delete_all d paths) = None.
Proof.
  induction paths as [|q paths IH]; intros d c Hin Hs; [destruct Hin|].
  cbn. destruct (Os.remove d q) as [d'|e] eqn:R.
  - destruct (Os.path_eq_dec (Os.resolve p) (Os.resolve q)) as [E|N].
    + apply delete_all_none. rewrite (remove_lookup _ _ _ _ R).
      destruct (Os.path_eq_dec (Os.resolve p) (Os.resolve q)); congruence.
    + destruct Hin as [<-|Hin]; [congruence|].
      apply (IH d' c Hin). rewrite <- Hs. apply stat_agree.
      rewrite (remove_lookup _ _ _ _ R).
      destruct (Os.path_eq_dec (Os.resolve p) (Os.resolve q)); congruence.
  - destruct Hin as [<-|Hin]; [|now apply (IH d c)].
    unfold Os.remove in R. rewrite Hs in R. discriminate.
Qed.

(** The immutable attribute is invisible to everything but [os.remove] and
    [save]. *)
Lemma lookup_thaw (k : Os.path) (d : Os.fs) :
  Os.lookup k (thaw d) = option_map thaw_node (Os.lookup k d).
Proof.
  induction d as [|[k0 n0] d IH]; cbn; [reflexivity|].
  destruct (Os.path_eq_dec k k0); [reflexivity | exact IH].
Qed.

Lemma stat_thaw (d : Os.fs) (p : string) :
  Os.stat (thaw d) p =
  match Os.stat d p with Ok n => Ok (thaw_node n) | Raise e => Raise e end.
Proof.
  unfold Os.stat. destruct (p =? ""); [reflexivity|].
  rewrite lookup_thaw. destruct (Os.lookup (Os.resolve p) d) as [[i c|]|]; cbn;
    try reflexivity.
  destruct (Os.ends_with_sep p); reflexivity.
Qed.

Lemma children_thaw (dir : Os.path) (d : Os.fs) :
  Os.children dir (thaw d) = Os.children dir d.
Proof.
  unfold Os.children, thaw. induction d as [|[k0 n0] d IH]; cbn; [reflexivity|].
  now rewrite IH.
Qed.

Lemma listdir_thaw (d : Os.fs) (p : string) :
  Os.listdir (thaw d) p = Os.listdir d p.
Proof.
  unfold Os.listdir. rewrite stat_thaw, children_thaw.
  destruct (Os.stat d p) as [[i c|]|e]; reflexivity.
Qed.

Lemma path_exists_thaw (d : Os.fs) (p : string) :
  Os.path_exists (thaw d) p = Os.path_exists d p.
Proof.
  unfold Os.path_exists. rewrite stat_thaw. destruct (Os.stat d p); reflexivity.
Qed.

Lemma read_bytes_thaw (d : Os.fs) (p : string) :
  Os.read_bytes (thaw d) p = Os.read_bytes d p.
Proof.
  unfold Os.read_bytes. rewrite stat_thaw.
  destruct (Os.stat d p) as [[i c|]|e]; reflexivity.
Qed.

Lemma check_files_thaw (d : Os.fs) (files : list string) :
  check_files (thaw d) files = check_files d files.
Proof.
  induction files as [|f files IH]; cbn; [reflexivity|].
  now rewrite path_exists_thaw, IH.
Qed.

Lemma parse_all_thaw (d : Os.fs) (paths : list string) :
  forall st, parse_all tokenize (thaw d) st paths = parse_all tokenize d st paths.
Proof.
  induction paths as [|p paths IH]; intros st; cbn [parse_all]; [reflexivity|].
  unfold parse_one. rewrite read_bytes_thaw.
  destruct (Os.read_bytes d p) as [c|e]; [|reflexivity].
  destruct (is_nil c); [apply IH|].
  destruct (read_csv tokenize c false) as [df|e]; [|reflexivity].
  destruct (empty df); [apply IH|].
  destruct (headers st) as [h|]; [|apply IH].
  destruct (labels_eqb (columns df) h); [apply IH | reflexivity].
Qed.

(** The response of [combine_csv] does not depend on which files
    [os.remove] will refuse. *)
Lemma combine_thaw (d : Os.fs) :
  resp (combine_csv tokenize to_csv (thaw d)) = resp (combine_csv tokenize to_csv d).
Proof.
  unfold combine_csv. rewrite listdir_thaw.
  destruct (Os.listdir d UPLOAD_FOLDER) as [names|e]; [|reflexivity].
  destruct (is_nil (filter allowed_file names)); [reflexivity|].
  rewrite check_files_thaw.
  destruct (check_files d (filter allowed_file names)) as [m|valid]; [reflexivity|].
  rewrite parse_all_thaw.
  destruct (parse_all tokenize d _ valid) as [st|m]; [|reflexivity].
  destruct (is_nil (dfs st)); [reflexivity|].
  destruct (concat (dfs st)); reflexivity.
Qed.

(** C3.  When [combine_csv] reaches the success point, every file of the
    initial listing goes through the deletion loop, the files skipped as
    empty included: afterwards a listed regular file is gone, unless
    [os.remove] refuses it (here: the immutable attribute, or a directory
    under a listed name), in which case it is still there.  What is not
    listed is untouched.  A refused deletion fails nothing: the same
    download is returned on every tree that differs from this one in the
    immutable attributes only. *)
Theorem success_deletes_listing (d : Os.fs) (b : list byte) :
  resp (combine_csv tokenize to_csv d) = SendFile b ->
  exists names,
    Os.listdir d UPLOAD_FOLDER = Ok names /\
    (forall f, In f (filter allowed_file names) ->
       exists n,
         Os.stat d (staged_path f) = Ok n /\
         Os.lookup (Os.resolve (staged_path f))
                   (disk (combine_csv tokenize to_csv d)) =
         match n with
         | Os.File false _ => None
         | _ => Some n
         end) /\
    (forall k,
       (forall f, In f (filter allowed_file names) ->
          k <> Os.resolve (staged_path f)) ->
       Os.lookup k (disk (combine_csv tokenize to_csv d)) = Os.lookup k d) /\
    (forall d', thaw d' = thaw d ->
       resp (combine_csv tokenize to_csv d') = SendFile b).
Proof.
  intros H.
  destruct (combine_success_inv _ _ H) as (names & h & L & Hex & _ & _ & _ & _ & _ & Hd).
  exists names. split; [exact L|]. rewrite Hd. split; [|split].
  - intros f F. pose proof (Hex f F) as E. unfold Os.path_exists in E.
    destruct (Os.stat d (staged_path f)) as [n|e] eqn:S; [|discriminate].
    exists n. split; [reflexivity|].
    destruct n as [[|] c|].
    + apply delete_all_kept; [discriminate | now apply stat_lookup].
    + apply (delete_all_gone _ _ _ c); [now apply in_map | exact S].
    + apply delete_all_kept; [discriminate | now apply stat_lookup].
  - intros k Hk. apply delete_all_other. intros p P.
    apply in_map_iff in P as (f & <- & F). now apply Hk.
  - intros d' E. rewrite <- (combine_thaw d'), E, combine_thaw. exact H.
Qed.


(** ** The order of the listing *)

Lemma lookup_in (d : Os.fs) (k : Os.path) (n : Os.node) :
  Os.lookup k d = Some n -> In (k, n) d.
Proof.
  induction d as [|[k0 n0] d IH]; cbn; [discriminate|].
  destruct (Os.path_eq_dec k k0) as [<-|N].
  - intros H. injection H as <-. now left.
  - intros H. right. now apply IH.
Qed.

Lemma lookup_none (d : Os.fs) (k : Os.path) :
  Os.lookup k d = None <-> ~ In k (map fst d).
Proof.
  induction d as [|[k0 n0] d IH]; cbn.
  - split; auto.
  - destruct (Os.path_eq_dec k k0) as [<-|N].
    + split; [discriminate | intros H; exfalso; apply H; now left].
    + rewrite IH. split.
      * intros H [E|I]; [congruence | contradiction].
      * intros H I. apply H. now right.
Qed.

Lemma in_lookup (d : Os.fs) (k : Os.path) (n : Os.node) :
  NoDup (map fst d) -> In (k, n) d -> Os.lookup k d = Some n.
Proof.
  induction d as [|[k0 n0] d IH]; cbn; intros ND I; [destruct I|].
  inversion ND as [|? ? Hnot ND']; subst.
  destruct I as [E|I].
  - injection E as -> ->. destruct (Os.path_eq_dec k k); congruence.
  - destruct (Os.path_eq_dec k k0) as [<-|N]; [|now apply IH].
    exfalso. apply Hnot. apply in_map_iff. exists (k, n). now split.
Qed.

(** With one entry per key, the order of the entries does not matter to a
    lookup. *)
Lemma lookup_perm (d1 d2 : Os.fs) (k : Os.path) :
  NoDup (map fst d1) -> Permutation d1 d2 ->
  Os.lookup k d1 = Os.lookup k d2.
Proof.
  intros ND P.
  assert (ND2 : NoDup (map fst d2))
    by (eapply Permutation_NoDup; [apply Permutation_map; exact P | exact ND]).
  destruct (Os.lookup k d1) as [n|] eqn:E.
  - symmetry. apply in_lookup; [exact ND2|].
    apply (Permutation_in _ P). now apply lookup_in.
  - symmetry. apply lookup_none. apply lookup_none in E. intros I. apply E.
    apply (Permutation_in _ (Permutation_sym (Permutation_map fst P))). exact I.
Qed.

Lemma filter_perm (A : Type) (p : A -> bool) (l1 l2 : list A) :
  Permutation l1 l2 -> Permutation (filter p l1) (filter p l2).
Proof.
  induction 1 as [|x l l' P IH|x y l|l l' l'' P1 IH1 P2 IH2]; cbn.
  - constructor.
  - destruct (p x); [now constructor | exact IH].
  - destruct (p x), (p y); try reflexivity. constructor.
  - now transitivity (filter p l').
Qed.

Lemma status_perm (d1 d2 : Os.fs) (p : string) :
  NoDup (map fst d1) -> Permutation d1 d2 ->
  status_of tokenize d1 p = status_of tokenize d2 p.
Proof.
  intros ND P. unfold status_of, Os.read_bytes.
  rewrite (stat_agree d1 d2 p (lookup_perm d1 d2 _ ND P)). reflexivity.
Qed.

Lemma accepted_perm (d1 d2 : Os.fs) (l1 l2 : list string) :
  NoDup (map fst d1) -> Permutation d1 d2 -> Permutation l1 l2 ->
  Permutation (accepted tokenize d1 l1) (accepted tokenize d2 l2).
Proof.
  intros ND P PL. unfold accepted.
  rewrite (flat_map_ext _ (fun p => match status_of tokenize d2 p with
                                    | Accepted df => [df]
                                    | _ => []
                                    end)).
  - now apply Permutation_flat_map.
  - intros p. now rewrite (status_perm d1 d2 p ND P).
Qed.

Lemma listdir_perm (d1 d2 : Os.fs) (p : string) (names1 : list string) :
  NoDup (map fst d1) -> Permutation d1 d2 ->
  Os.listdir d1 p = Ok names1 ->
  exists names2, Os.listdir d2 p = Ok names2 /\ Permutation names1 names2.
Proof.
  intros ND P. unfold Os.listdir.
  rewrite (stat_agree d1 d2 p (lookup_perm d1 d2 _ ND P)).
  destruct (Os.stat d2 p) as [[i c|]|e]; try discriminate.
  intros H. injection H as <-. eexists. split; [reflexivity|].
  unfold Os.children. now apply Permutation_flat_map.
Qed.

(** C9 (as amended).  [combine_csv] takes the files in the order of
    [os.listdir] and sorts nothing.  Over two trees with the same entries
    in different listing orders (one entry per path), a combine that
    succeeds on the one succeeds on the other, under the same header and
    with the same data rows as a multiset: the two downloads serialize
    frames whose rows are permutations of each other. *)
Theorem combine_order (d1 d2 : Os.fs) (b1 : list byte) :
  NoDup (map fst d1) ->
  Permutation d1 d2 ->
  resp (combine_csv tokenize to_csv d1) = SendFile b1 ->
  exists df1 df2,
    b1 = list_byte_of_string (to_csv df1) /\
    resp (combine_csv tokenize to_csv d2) = SendFile (list_byte_of_string (to_csv df2)) /\
    columns df1 = columns df2 /\
    Permutation (rows df1) (rows df2).
Proof.
  intros ND P H.
  destruct (combine_success_inv _ _ H)
    as (names1 & h & L1 & _ & Hall & Hne & Hcols & Hb & _ & _).
  destruct (listdir_perm d1 d2 _ names1 ND P L1) as (names2 & L2 & PN).
  pose proof (Permutation_map staged_path (filter_perm _ allowed_file _ _ PN)) as PP.
  pose proof (accepted_perm d1 d2 _ _ ND P PP) as PA.
  eexists. eexists (mkFrame h _). split; [exact Hb|].
  rewrite (combine_success d2 names2 h L2).
  - cbn [resp columns rows]. split; [reflexivity|]. split; [reflexivity|].
    now apply Permutation_flat_map.
  - intros p I e. rewrite <- (status_perm d1 d2 p ND P). apply Hall.
    apply (Permutation_in _ (Permutation_sym PP)). exact I.
  - intros E. rewrite E in PA. apply Permutation_sym, Permutation_nil in PA.
    contradiction.
  - intros df I. apply Hcols. apply (Permutation_in _ (Permutation_sym PA)). exact I.
Qed.

(** ** Uploads *)

(** What the loop of [upload_files] does to the file system depends on the
    file system only, not on the messages or the names collected so far. *)
Lemma upload_one_disk (st st' : upload_state) (file : upload) :
  up_disk st = up_disk st' ->
  up_disk (upload_one ascii_fold st file) = up_disk (upload_one ascii_fold st' file).
Proof.
  intros E. unfold upload_one. rewrite <- E.
  destruct (negb (filename file =? "") && allowed_file (filename file));
    [|reflexivity].
  destruct (Z.of_nat (List.length (stream file)) =? 0)%Z; [reflexivity|].
  destruct (MAX_CONTENT_LENGTH <? Z.of_nat (List.length (stream file)))%Z; [reflexivity|].
  destruct (Os.save (up_disk st) _ (stream file)) as [d1|e]; [|reflexivity].
  destruct (Os.path_exists d1 _); [|reflexivity].
  destruct (Os.read_bytes d1 _) as [c|e]; [|reflexivity].
  destruct (is_nil c); [|reflexivity].
  destruct (Os.remove d1 _); reflexivity.
Qed.

Lemma upload_all_disk (files : list upload) :
  forall st st',
  up_disk st = up_disk st' ->
  up_disk (fold_left (upload_one ascii_fold) files st) =
  up_disk (fold_left (upload_one ascii_fold) files st').
Proof.
  induction files as [|f files IH]; intros st st' E; cbn; [exact E|].
  apply IH. now apply upload_one_disk.
Qed.

(** A part without payload changes neither the file system nor the list
    of saved names; it flashes that the file is empty, or that it is
    invalid when the name is not accepted. *)
Lemma upload_one_empty (st : upload_state) (name : string) :
  upload_one ascii_fold st (mkUpload name []) =
  mkUploadState (up_disk st)
    (up_flashes st ++
     [if negb (name =? "") && allowed_file name
      then UploadEmpty (secure_filename ascii_fold name)
      else InvalidFile name])
    (saved_files st).
Proof.
  unfold upload_one. cbn [filename stream List.length Z.of_nat Z.eqb].
  destruct (negb (name =? "") && allowed_file name); reflexivity.
Qed.

Lemma upload_one_unnamed (st : upload_state) (file : upload) :
  (filename file =? "") = true ->
  up_disk (upload_one ascii_fold st file) = up_disk st.
Proof.
  intros E. unfold upload_one. rewrite E. reflexivity.
Qed.

Lemma upload_all_unnamed (files : list upload) :
  forall st,
  forallb (fun f => filename f =? "") files = true ->
  up_disk (fold_left (upload_one ascii_fold) files st) = up_disk st.
Proof.
  induction files as [|f files IH]; intros st H; cbn; [reflexivity|].
  cbn in H. apply andb_true_iff in H as [H1 H2].
  rewrite IH by assumption. now apply upload_one_unnamed.
Qed.

(** The loop of [upload_files] leaves no regular file without content
    that was not there before. *)
Lemma upload_one_no_empty (st : upload_state) (file : upload)
    (k : Os.path) (i : bool) :
  Os.lookup k (up_disk (upload_one ascii_fold st file)) = Some (Os.File i []) ->
  Os.lookup k (up_disk st) = Some (Os.File i []).
Proof.
  unfold upload_one.
  destruct (negb (filename file =? "") && allowed_file (filename file));
    [|auto].
  destruct (Z.of_nat (List.length (stream file)) =? 0)%Z eqn:Z0; [auto|].
  destruct (MAX_CONTENT_LENGTH <? Z.of_nat (List.length (stream file)))%Z; [auto|].
  assert (Hne : stream file <> []).
  { intros E. rewrite E in Z0. discriminate. }
  set (p := Os.path_join UPLOAD_FOLDER (secure_filename ascii_fold (filename file))).
  destruct (Os.save (up_disk st) p (stream file)) as [d1|e] eqn:S; [|auto].
  assert (H1 : Os.lookup k d1 = Some (Os.File i []) ->
               Os.lookup k (up_disk st) = Some (Os.File i [])).
  { assert (E1 : d1 = Os.store (Os.resolve p) (Os.File false (stream file)) (up_disk st)).
    { unfold Os.save in S.
      destruct (Os.stat (up_disk st) p) as [[[|] c|]|e]; try discriminate.
      - congruence.
      - destruct e; try discriminate;
          (destruct (p =? ""); [discriminate|];
           destruct (Os.ends_with_sep p); [discriminate|];
           destruct (Os.lookup (Os.parent (Os.resolve p)) (up_disk st)) as [[? ?|]|];
           try discriminate; congruence). }
    rewrite E1, lookup_store.
    destruct (Os.path_eq_dec k (Os.resolve p)); [|auto].
    intros H. injection H as _ H. congruence. }
  destruct (Os.path_exists d1 p); [|exact H1].
  destruct (Os.read_bytes d1 p) as [c|e]; [|exact H1].
  destruct (is_nil c); [|exact H1].
  destruct (Os.remove d1 p) as [d2|e] eqn:R; [|exact H1].
  cbn [up_disk]. rewrite (remove_lookup _ _ _ _ R).
  destruct (Os.path_eq_dec k (Os.resolve p)); [discriminate | exact H1].
Qed.

Lemma upload_all_no_empty (files : list upload) (k : Os.path) (i : bool) :
  forall st,
  Os.lookup k (up_disk (fold_left (upload_one ascii_fold) files st)) = Some (Os.File i []) ->
  Os.lookup k (up_disk st) = Some (Os.File i []).
Proof.
  induction files as [|f files IH]; intros st H; cbn in H; [exact H|].
  apply IH in H. now apply upload_one_no_empty in H.
Qed.

Lemma upload_files_disk (d : Os.fs) (files : list upload) :
  disk (upload_files ascii_fold d files) =
  up_disk (fold_left (upload_one ascii_fold) files (mkUploadState d [] [])).
Proof.
  unfold upload_files. destruct files as [|f files]; [reflexivity|].
  cbn [is_nil].
  destruct (forallb (fun f0 => filename f0 =? "") (f :: files)) eqn:E; [|reflexivity].
  cbn [disk]. symmetry. now apply upload_all_unnamed.
Qed.

(** C8.  A part whose payload has length 0 is rejected: whatever else the
    request holds, the file system after the request is what it is
    without that part, so the name does not enter the listing of [index]
    through it; the loop body flashes that the file is empty (or, for a
    name that is not accepted, that it is invalid) and saves nothing.
    And no upload creates a file of length 0: a regular file without
    content after a request was there, without content, before it. *)
Theorem zero_length_upload_rejected (d : Os.fs) (pre post : list upload) (name : string) :
  disk (upload_files ascii_fold d (pre ++ mkUpload name [] :: post)) =
    disk (upload_files ascii_fold d (pre ++ post)) /\
  resp (index (disk (upload_files ascii_fold d (pre ++ mkUpload name [] :: post)))) =
    resp (index (disk (upload_files ascii_fold d (pre ++ post)))) /\
  (forall st,
     upload_one ascii_fold st (mkUpload name []) =
     mkUploadState (up_disk st)
       (up_flashes st ++
        [if negb (name =? "") && allowed_file name
         then UploadEmpty (secure_filename ascii_fold name)
         else InvalidFile name])
       (saved_files st)) /\
  (forall files k i,
     Os.lookup k (disk (upload_files ascii_fold d files)) = Some (Os.File i []) ->
     Os.lookup k d = Some (Os.File i [])).
Proof.
  assert (E : disk (upload_files ascii_fold d (pre ++ mkUpload name [] :: post)) =
              disk (upload_files ascii_fold d (pre ++ post))).
  { rewrite !upload_files_disk, !fold_left_app. cbn [fold_left].
    apply upload_all_disk. rewrite upload_one_empty. reflexivity. }
  split; [exact E|]. split; [now rewrite E|]. split.
  - intros st. apply upload_one_empty.
  - intros files k i H. rewrite upload_files_disk in H.
    now apply upload_all_no_empty in H.
Qed.

(** ** Names and paths *)

Lemma string_forall_impl (p q : ascii -> bool) (s : string) :
  (forall c, p c = true -> q c = true) ->
  string_forall p s = true -> string_forall q s = true.
Proof.
  intros I. induction s as [|c s IH]; cbn; [reflexivity|].
  intros H. apply andb_true_iff in H as [H1 H2].
  rewrite (I c H1). now apply IH.
Qed.

Lemma string_forall_filter (p : ascii -> bool) (s : string) :
  string_forall p (string_filter p s) = true.
Proof.
  induction s as [|c s IH]; cbn; [reflexivity|].
  destruct (p c) eqn:E; cbn; [now rewrite E | exact IH].
Qed.

Lemma string_forall_lstrip (q p : ascii -> bool) (s : string) :
  string_forall q s = true -> string_forall q (Werkzeug.lstrip p s) = true.
Proof.
  induction s as [|c s IH]; cbn; [reflexivity|].
  intros H. destruct (p c); [|exact H].
  apply andb_true_iff in H as [_ H]. now apply IH.
Qed.

Lemma string_forall_rstrip (q p : ascii -> bool) (s : string) :
  string_forall q s = true -> string_forall q (Werkzeug.rstrip p s) = true.
Proof.
  induction s as [|c s IH]; cbn; [reflexivity|].
  intros H. apply andb_true_iff in H as [H1 H2]. specialize (IH H2).
  destruct (Werkzeug.rstrip p s) as [|c' r].
  - destruct (p c); cbn; [reflexivity | now rewrite H1].
  - cbn [string_forall]. now rewrite H1.
Qed.

Lemma lstrip_head (p : ascii -> bool) (s : string) :
  match Werkzeug.lstrip p s with
  | String c _ => p c = false
  | EmptyString => True
  end.
Proof.
  induction s as [|c s IH]; cbn; [exact I|].
  destruct (p c) eqn:E; [exact IH | exact E].
Qed.

Lemma rstrip_head (p : ascii -> bool) (s : string) :
  match Werkzeug.rstrip p s with
  | String c _ => exists r, s = String c r
  | EmptyString => True
  end.
Proof.
  destruct s as [|c s]; cbn; [exact I|].
  destruct (Werkzeug.rstrip p s) as [|c' r].
  - destruct (p c); [exact I | now exists s].
  - now exists s.
Qed.

(** What [secure_filename] returns is made of the letters, digits and
    [_.-] only ... *)
Lemma secure_filename_safe (filename : string) :
  string_forall Werkzeug.safe_char (secure_filename ascii_fold filename) = true.
Proof.
  unfold secure_filename, Werkzeug.secure_filename, Werkzeug.strip.
  apply string_forall_rstrip, string_forall_lstrip, string_forall_filter.
Qed.

(** ... and does not begin with a dot or an underscore. *)
Lemma secure_filename_head (filename : string) :
  match secure_filename ascii_fold filename with
  | String c _ => Werkzeug.edge_char c = false
  | EmptyString => True
  end.
Proof.
  unfold secure_filename, Werkzeug.secure_filename, Werkzeug.strip.
  set (x := string_filter Werkzeug.safe_char _).
  pose proof (rstrip_head Werkzeug.edge_char (Werkzeug.lstrip Werkzeug.edge_char x)) as R.
  pose proof (lstrip_head Werkzeug.edge_char x) as L.
  destruct (Werkzeug.rstrip Werkzeug.edge_char (Werkzeug.lstrip Werkzeug.edge_char x))
    as [|c r]; [exact I|].
  destruct R as (r' & R). rewrite R in L. exact L.
Qed.

Lemma safe_char_no_sep (c : ascii) :
  Werkzeug.safe_char c = true -> negb (Ascii.eqb c "/") = true.
Proof.
  destruct c as [[] [] [] [] [] [] [] []]; vm_compute; congruence.
Qed.

Lemma secure_filename_plain (filename : string) :
  secure_filename ascii_fold filename <> "" ->
  plain_name (secure_filename ascii_fold filename).
Proof.
  intros Hne.
  pose proof (secure_filename_safe filename) as S.
  pose proof (secure_filename_head filename) as H.
  destruct (secure_filename ascii_fold filename) as [|c r]; [contradiction|].
  repeat split; try discriminate.
  - intros E. injection E as -> _. discriminate.
  - intros E. injection E as -> _. discriminate.
  - exact (string_forall_impl _ _ _ safe_char_no_sep S).
Qed.

Lemma split_on_plain (sep : ascii) (s : string) :
  string_forall (fun c => negb (Ascii.eqb c sep)) s = true ->
  split_on sep s = [s].
Proof.
  induction s as [|c s IH]; cbn; [reflexivity|].
  intros H. apply andb_true_iff in H as [H1 H2].
  apply negb_true_iff in H1. rewrite H1, (IH H2). reflexivity.
Qed.

Lemma split_on_app (sep : ascii) (a b : string) :
  string_forall (fun c => negb (Ascii.eqb c sep)) a = true ->
  split_on sep (a ++ String sep b) = a :: split_on sep b.
Proof.
  induction a as [|c a IH]; cbn.
  - intros _. now rewrite Ascii.eqb_refl.
  - intros H. apply andb_true_iff in H as [H1 H2].
    apply negb_true_iff in H1. rewrite H1, (IH H2). reflexivity.
Qed.

Lemma staged_path_plain (s : string) :
  plain_name s -> staged_path s = (UPLOAD_FOLDER ++ String "/" s)%string.
Proof.
  intros (H0 & _ & _ & H). unfold staged_path, Os.path_join.
  destruct s as [|c r]; [contradiction|].
  cbn in H. apply andb_true_iff in H as [H _]. apply negb_true_iff in H.
  cbn [Os.is_absolute]. rewrite H. reflexivity.
Qed.

(** The path built for a plain name is the child of the storage area of
    that name. *)
Lemma resolve_staged (s : string) :
  plain_name s -> Os.resolve (staged_path s) = (false, [UPLOAD_FOLDER; s]).
Proof.
  intros P. rewrite (staged_path_plain s P). destruct P as (H0 & H1 & H2 & H).
  unfold Os.resolve. rewrite split_on_app by reflexivity.
  rewrite (split_on_plain _ _ H).
  apply String.eqb_neq in H0, H1, H2.
  cbn. rewrite H0, H1, H2. reflexivity.
Qed.

Lemma staged_path_no_trailing_sep (s : string) :
  plain_name s -> Os.ends_with_sep (staged_path s) = false.
Proof.
  intros P. rewrite (staged_path_plain s P). destruct P as (H0 & _ & _ & H).
  unfold Os.ends_with_sep. rewrite split_on_app by reflexivity.
  rewrite (split_on_plain _ _ H). cbn. now apply String.eqb_neq.
Qed.

(** The base name of the path built for a plain name is the name. *)
Lemma basename_staged (s : string) :
  plain_name s -> Os.basename (staged_path s) = s.
Proof.
  intros P. rewrite (staged_path_plain s P). destruct P as (_ & _ & _ & H).
  unfold Os.basename. rewrite split_on_app by reflexivity.
  rewrite (split_on_plain _ _ H). reflexivity.
Qed.

Lemma remove_trailing_sep (d d' : Os.fs) (p : string) :
  Os.ends_with_sep p = true -> Os.remove d p <> Ok d'.
Proof.
  intros E. unfold Os.remove, Os.stat. destruct (p =? ""); [discriminate|].
  destruct (Os.lookup (Os.resolve p) d) as [[[|] c|]|]; rewrite ?E; discriminate.
Qed.

Lemma strip_prefix_one (a : string) (l : list string) (x : string) :
  Os.strip_prefix [a] l = Some [x] -> l = [a; x].
Proof.
  destruct l as [|b l]; cbn; [discriminate|].
  destruct (a =? b) eqn:E; [|discriminate].
  apply String.eqb_eq in E. intros H. injection H as ->. now subst.
Qed.

(** In a tidy tree, what [os.listdir] reports for the storage area is
    there: between listing and reading nothing vanishes. *)
Lemma listed_files_exist (d : Os.fs) (names : list string) :
  tidy d ->
  Os.listdir d UPLOAD_FOLDER = Ok names ->
  forall f, In f names ->
    plain_name f /\ Os.path_exists d (staged_path f) = true.
Proof.
  intros T L f F. unfold Os.listdir in L.
  destruct (Os.stat d UPLOAD_FOLDER) as [[i c|]|e]; try discriminate.
  injection L as <-. unfold Os.children in F.
  apply in_flat_map in F as ([k n] & I & F). cbn [fst] in F.
  destruct (Os.child_name (Os.resolve UPLOAD_FOLDER) k) as [x|] eqn:C; [|destruct F].
  destruct F as [<-|[]].
  unfold Os.child_name in C. change (Os.resolve UPLOAD_FOLDER) with (false, [UPLOAD_FOLDER]) in C.
  cbn [fst snd] in C. destruct k as [a comps]. cbn [fst snd] in C.
  destruct a; cbn [Bool.eqb] in C; [discriminate|].
  destruct (Os.strip_prefix [UPLOAD_FOLDER] comps) as [[|y [|z l]]|] eqn:S;
    try discriminate.
  injection C as ->. apply strip_prefix_one in S. subst comps.
  destruct (T _ _ I) as [_ Fa]. cbn [snd] in Fa.
  assert (P : plain_name x).
  { inversion Fa as [|? ? _ Fa']; subst. now inversion Fa'. }
  split; [exact P|].
  unfold Os.path_exists, Os.stat.
  rewrite (staged_path_plain x P) at 1. cbn [append String.eqb Ascii.eqb Bool.eqb UPLOAD_FOLDER].
  rewrite (resolve_staged x P), (staged_path_no_trailing_sep x P).
  destruct (Os.lookup (false, [UPLOAD_FOLDER; x]) d) as [[? ?|]|] eqn:K;
    try reflexivity.
  exfalso. apply lookup_none in K. apply K.
  apply in_map_iff. exists ((false, [UPLOAD_FOLDER; x]), n). now split.
Qed.

(** C10.  [remove_file] joins the sanitized name, the one [upload_files]
    saves under, to the storage root.  Whatever the client sends, the only
    entry a request can change is the direct child of the storage area
    named by [secure_filename], a plain name without separator that is
    neither empty nor [.] nor [..]; the change is its deletion.  Every
    other path, inside or outside the storage area, is as it was. *)
Theorem remove_stays_in_storage (d : Os.fs) (filename : string) (k : Os.path) :
  Os.lookup k (disk (remove_file ascii_fold d filename)) <> Os.lookup k d ->
  plain_name (secure_filename ascii_fold filename) /\
  k = (false, [UPLOAD_FOLDER; secure_filename ascii_fold filename]) /\
  Os.lookup k (disk (remove_file ascii_fold d filename)) = None.
Proof.
  unfold remove_file. fold (staged_path (secure_filename ascii_fold filename)).
  set (s := secure_filename ascii_fold filename).
  destruct (Os.path_exists d (staged_path s)); [|cbn; congruence].
  destruct (Os.remove d (staged_path s)) as [d'|e] eqn:R; [|cbn; congruence].
  cbn [disk]. rewrite (remove_lookup _ _ _ k R).
  destruct (Os.path_eq_dec k (Os.resolve (staged_path s))) as [E|N]; [|congruence].
  intros _.
  assert (P : plain_name s).
  { apply secure_filename_plain. fold s. intros E0. rewrite E0 in R.
    revert R. apply remove_trailing_sep. reflexivity. }
  rewrite (resolve_staged s P) in E. auto.
Qed.

(** * Further properties of the handlers *)

(** ** [allowed_file] *)

Lemma split_on_cons (sep : ascii) (s : string) :
  exists w ws, split_on sep s = w :: ws.
Proof.
  destruct s as [|c s]; cbn; [now exists EmptyString, []|].
  destruct (Ascii.eqb c sep); [now eexists; eexists|].
  destruct (split_on sep s); now eexists; eexists.
Qed.

Lemma split_on_pieces (sep : ascii) (s : string) :
  Forall (fun w => string_forall (fun c => negb (Ascii.eqb c sep)) w = true)
         (split_on sep s).
Proof.
  induction s as [|c s IH]; cbn; [now repeat constructor|].
  destruct (Ascii.eqb c sep) eqn:E; [now constructor|].
  destruct (split_on sep s) as [|w ws]; [repeat constructor; cbn; now rewrite E|].
  inversion IH as [|? ? Hw Hws]; subst. constructor; [|exact Hws].
  cbn. now rewrite E, Hw.
Qed.

(** Splitting at a separator splits the parts on its two sides. *)
Lemma split_on_cat (sep : ascii) (a b : string) :
  split_on sep (a ++ String sep b) = split_on sep a ++ split_on sep b.
Proof.
  induction a as [|c a IH]; cbn.
  - now rewrite Ascii.eqb_refl.
  - destruct (Ascii.eqb c sep); [now rewrite IH|].
    rewrite IH. destruct (split_on_cons sep a) as (w & ws & ->). reflexivity.
Qed.

Lemma join_cons (sep a b : string) (l : list string) :
  join sep (a :: b :: l) = (a ++ sep ++ join sep (b :: l))%string.
Proof.
  reflexivity.
Qed.

(** [sep.join(s.split(sep)) == s] *)
Lemma join_split (sep : ascii) (s : string) :
  join (String sep EmptyString) (split_on sep s) = s.
Proof.
  induction s as [|c s IH]; cbn [split_on]; [reflexivity|].
  destruct (Ascii.eqb c sep) eqn:E.
  - apply Ascii.eqb_eq in E. subst c.
    destruct (split_on_cons sep s) as (w & ws & W). rewrite W in *.
    rewrite join_cons, <- IH. reflexivity.
  - destruct (split_on_cons sep s) as (w & ws & W). rewrite W in *.
    destruct ws as [|w' ws].
    + cbn in *. now subst.
    + rewrite join_cons in IH. rewrite join_cons, <- IH. reflexivity.
Qed.

Lemma append_assoc (a b c : string) :
  ((a ++ b) ++ c = a ++ (b ++ c))%string.
Proof.
  induction a as [|x a IH]; cbn; [reflexivity | now rewrite IH].
Qed.

Lemma join_last (sep : string) (l : list string) (w1 w2 : string) :
  join sep (w1 :: w2 :: l) =
  (join sep (removelast (w1 :: w2 :: l)) ++ sep ++ last (w1 :: w2 :: l) "")%string.
Proof.
  revert w1 w2. induction l as [|w3 l IH]; intros w1 w2; [reflexivity|].
  change (join sep (w1 :: w2 :: w3 :: l))
    with (w1 ++ sep ++ join sep (w2 :: w3 :: l))%string.
  rewrite IH.
  change (removelast (w1 :: w2 :: w3 :: l)) with (w1 :: removelast (w2 :: w3 :: l)).
  change (last (w1 :: w2 :: w3 :: l) "") with (last (w2 :: w3 :: l) "").
  destruct (removelast (w2 :: w3 :: l)) as [|r rs] eqn:R; [discriminate|].
  change (join sep (w1 :: r :: rs)) with (w1 ++ sep ++ join sep (r :: rs))%string.
  now rewrite !append_assoc.
Qed.

Lemma contains_dot_app (a b : string) :
  contains_dot (a ++ String "." b) = true.
Proof.
  unfold contains_dot. induction a as [|c a IH]; cbn; [reflexivity|].
  destruct (Ascii.eqb c "."); cbn; [reflexivity | exact IH].
Qed.

(** X1.  [allowed_file] accepts exactly the names of the form
    [stem.ext] whose extension, the part after the last dot, is [csv] in
    any mix of upper and lower case. *)
Theorem allowed_file_iff (name : string) :
  allowed_file name = true <->
  exists stem ext,
    name = (stem ++ "." ++ ext)%string /\
    string_forall (fun c => negb (Ascii.eqb c ".")) ext = true /\
    lower ext = "csv".
Proof.
  unfold allowed_file, rsplit1_dot. split.
  - intros H. apply andb_true_iff in H as [Hd He].
    pose proof (join_split "." name) as J.
    pose proof (split_on_pieces "." name) as P.
    destruct (split_on "." name) as [|w1 [|w2 l]] eqn:S.
    + destruct (split_on_cons "." name) as (w & ws & W). congruence.
    + cbn in J. subst w1. inversion P as [|? ? Hw _]; subst.
      unfold contains_dot in Hd. rewrite Hw in Hd. discriminate.
    + exists (join "." (removelast (w1 :: w2 :: l))), (last (w1 :: w2 :: l) "").
      split; [|split].
      * rewrite <- J at 1. apply join_last.
      * rewrite Forall_forall in P. apply P.
        destruct (@exists_last _ (w1 :: w2 :: l)) as (l' & x & E); [discriminate|].
        rewrite E, last_last. apply in_or_app. right. now left.
      * cbn [nth] in He. unfold in_list, ALLOWED_EXTENSIONS in He. cbn in He.
        rewrite orb_false_r in He. now apply String.eqb_eq in He.
  - intros (stem & ext & -> & Hext & Hl).
    change (stem ++ "." ++ ext)%string with (stem ++ String "." ext)%string.
    rewrite contains_dot_app, split_on_cat, (split_on_plain _ _ Hext).
    destruct (split_on_cons "." stem) as (w & ws & ->). cbn [andb].
    destruct ws as [|w2 ws].
    + cbn [app nth last]. now rewrite Hl.
    + assert (E : last ((w :: w2 :: ws) ++ [ext]) "" = ext) by apply last_last.
      cbn [app] in *. cbn [nth]. rewrite E, Hl. reflexivity.
Qed.

(** ** [combine_csv]: failures, provenance, confinement *)

Lemma status_skipped_warning (d : Os.fs) (p : string) (w : message) :
  status_of tokenize d p = Skipped w -> is_warning w = true.
Proof.
  unfold status_of. destruct (Os.read_bytes d p) as [[|b c]|e]; try discriminate.
  - intros H. injection H as <-. reflexivity.
  - destruct (read_csv tokenize (b :: c) false) as [df|e]; [|discriminate].
    destruct (columns df), (rows df); try discriminate;
      intros H; injection H as <-; reflexivity.
Qed.

(** What an accepted frame is made of. *)
Lemma status_accepted_inv (d : Os.fs) (p : string) (df : DataFrame) :
  status_of tokenize d p = Accepted df ->
  exists content header records,
    Os.read_bytes d p = Ok content /\
    content <> [] /\
    tokenize content = Ok (header, records) /\
    df = mkFrame header (map (map Str) records) /\
    header <> [] /\ records <> [].
Proof.
  unfold status_of, read_csv.
  destruct (Os.read_bytes d p) as [[|b c]|e]; try discriminate.
  destruct (tokenize (b :: c)) as [[header records]|e] eqn:T; [|discriminate].
  cbn [columns rows].
  destruct header as [|h0 hs]; [discriminate|].
  destruct records as [|r0 rs]; [discriminate|].
  intros H. injection H as <-.
  exists (b :: c), (h0 :: hs), (r0 :: rs).
  split; [reflexivity|]. split; [discriminate|]. split; [exact T|].
  split; [|split; discriminate]. f_equal.
Qed.

Lemma warnings_are_warnings (d : Os.fs) (paths : list string) :
  forallb is_warning (warnings tokenize d paths) = true.
Proof.
  unfold warnings. induction paths as [|p paths IH]; cbn; [reflexivity|].
  destruct (status_of tokenize d p) as [w|df|e] eqn:S; cbn; try exact IH.
  now rewrite (status_skipped_warning d p w S).
Qed.

(** The messages of the parsing loop: warnings, then on an abort its one
    reason. *)
Lemma parse_all_messages (d : Os.fs) (paths : list string) :
  forall st,
  forallb is_warning (flashed st) = true ->
  match parse_all tokenize d st paths with
  | Next st' => forallb is_warning (flashed st') = true
  | Return msgs =>
      exists ws m, msgs = ws ++ [m] /\
                   forallb is_warning ws = true /\ is_abort m = true
  end.
Proof.
  induction paths as [|p paths IH]; intros st H; cbn [parse_all]; [exact H|].
  rewrite parse_one_status.
  destruct (status_of tokenize d p) as [w|df|e] eqn:S.
  - apply IH. cbn. rewrite forallb_app, H. cbn.
    now rewrite (status_skipped_warning d p w S).
  - destruct (headers st) as [h|]; [|now apply IH].
    destruct (labels_eqb (columns df) h); [now apply IH|].
    exists (flashed st), HeaderMismatch. auto.
  - exists (flashed st), (ReadError (Os.basename p) e). auto.
Qed.

(** The frames the loop has collected can be stacked: they are at least
    one when the list is not empty, and carry one header. *)
Lemma concat_after_loop (d : Os.fs) (paths : list string) (st : combine_state) :
  parse_all tokenize d (mkCombineState [] None []) paths = Next st ->
  dfs st <> [] ->
  exists h, concat (dfs st) = Ok (mkFrame h (flat_map rows (dfs st))).
Proof.
  intros P N. apply parse_all_inv in P as (_ & Hd & _ & Hh & _ & _).
  cbn [dfs app] in Hd. rewrite <- Hd in Hh.
  destruct (dfs st) as [|df0 more]; [contradiction|].
  exists (columns df0). apply concat_same_labels. intros x X.
  pose proof (Hh df0 (or_introl eq_refl)) as H0.
  pose proof (Hh x (or_intror X)) as H1. congruence.
Qed.

(** X2.  [combine_csv] is all or nothing.  Either it answers with the
    download, having flashed warnings only; or it answers with the
    redirect, the file system is exactly as before, and what it flashed is
    the warnings so far followed by one reason: the folder cannot be
    read, no CSV file, a file not found, a read error, a header mismatch,
    or no valid data.  The message for an error while combining is never
    among them: the frames handed to [pd.concat] always agree. *)
Theorem combine_all_or_nothing (d : Os.fs) :
  (exists b,
     resp (combine_csv tokenize to_csv d) = SendFile b /\
     forallb is_warning (flashes (combine_csv tokenize to_csv d)) = true) \/
  (resp (combine_csv tokenize to_csv d) = Redirect /\
   disk (combine_csv tokenize to_csv d) = d /\
   exists ws m,
     flashes (combine_csv tokenize to_csv d) = ws ++ [m] /\
     forallb is_warning ws = true /\ is_abort m = true).
Proof.
  unfold combine_csv.
  destruct (Os.listdir d UPLOAD_FOLDER) as [names|e];
    [|right; repeat split; now exists [], (AccessError e)].
  destruct (is_nil (filter allowed_file names));
    [right; repeat split; now exists [], NoCsvFound|].
  destruct (check_files d (filter allowed_file names)) as [m|valid];
    [right; repeat split; now exists [], (FileNotFound m)|].
  pose proof (parse_all_messages d valid (mkCombineState [] None []) eq_refl) as M.
  destruct (parse_all tokenize d (mkCombineState [] None []) valid) as [st|msgs] eqn:P;
    [|right; repeat split; exact M].
  destruct (is_nil (dfs st)) eqn:N;
    [right; repeat split; now exists (flashed st), NoValidData|].
  destruct (concat_after_loop d valid st P) as (h & ->).
  - intros E. rewrite E in N. discriminate.
  - left. eexists. split; [reflexivity | exact M].
Qed.

(** X3.  When every listed file can be read and parsed but none has a
    data row (each is empty or holds a header only), [combine_csv] fails
    with the message that no valid CSV files could be read, after the
    warning of each file; nothing is deleted. *)
Theorem no_valid_data (d : Os.fs) (names : list string) :
  Os.listdir d UPLOAD_FOLDER = Ok names ->
  filter allowed_file names <> [] ->
  all_parse tokenize d (map staged_path (filter allowed_file names)) ->
  accepted tokenize d (map staged_path (filter allowed_file names)) = [] ->
  combine_csv tokenize to_csv d =
  mkOutcome Redirect
    (warnings tokenize d (map staged_path (filter allowed_file names)) ++ [NoValidData])
    d.
Proof.
  intros L N Hall Hacc. unfold combine_csv. rewrite L.
  destruct (filter allowed_file names) as [|f files] eqn:F; [contradiction|].
  cbn [is_nil]. rewrite check_files_all by (now apply all_parse_exist).
  rewrite (parse_prefix d []); auto.
  - rewrite Hacc. reflexivity.
  - rewrite Hacc. intros x [].
Qed.

(** X4.  A download holds nothing but what the listed files hold.  Every
    row of the frame that is serialized is a record of a listed file that
    was read, under the very header of the download, each cell the text
    of the field as a string; no cell is the missing marker. *)
Theorem download_rows_provenance (d : Os.fs) (b : list byte) :
  resp (combine_csv tokenize to_csv d) = SendFile b ->
  exists names h table,
    Os.listdir d UPLOAD_FOLDER = Ok names /\
    b = list_byte_of_string (to_csv (mkFrame h table)) /\
    h <> [] /\ table <> [] /\
    forall row, In row table ->
      ~ In NaN row /\
      exists f content records r,
        In f (filter allowed_file names) /\
        Os.read_bytes d (staged_path f) = Ok content /\
        tokenize content = Ok (h, records) /\
        In r records /\ row = map Str r.
Proof.
  intros H.
  destruct (combine_success_inv _ _ H)
    as (names & h & L & _ & _ & Hne & Hcols & Hb & _ & _).
  exists names, h, (flat_map rows (accepted tokenize d
                      (map staged_path (filter allowed_file names)))).
  assert (Hin : forall df,
    In df (accepted tokenize d (map staged_path (filter allowed_file names))) ->
    exists f content records,
      In f (filter allowed_file names) /\
      Os.read_bytes d (staged_path f) = Ok content /\
      tokenize content = Ok (h, records) /\
      df = mkFrame h (map (map Str) records) /\ h <> [] /\ records <> []).
  { intros df I. pose proof (Hcols df I) as Hc. unfold accepted in I.
    apply in_flat_map in I as (p & Ip & I).
    apply in_map_iff in Ip as (f & <- & F).
    destruct (status_of tokenize d (staged_path f)) as [w|df'|e] eqn:S;
      cbn in I; try contradiction. destruct I as [<-|[]].
    apply status_accepted_inv in S as (c & hd & rs & R & _ & T & -> & Hh & Hr).
    cbn in Hc. subst hd. now exists f, c, rs. }
  split; [exact L|]. split; [exact Hb|].
  destruct (accepted tokenize d (map staged_path (filter allowed_file names)))
    as [|df0 more] eqn:A; [contradiction|].
  destruct (Hin df0 (or_introl eq_refl)) as (f0 & c0 & rs0 & _ & _ & _ & E0 & Hh & Hr0).
  split; [exact Hh|]. split.
  - cbn [flat_map]. rewrite E0. cbn [rows]. destruct rs0; [contradiction | discriminate].
  - intros row R. apply in_flat_map in R as (df & I & R).
    destruct (Hin df I) as (f & c & rs & F & Rd & T & -> & _ & _).
    cbn [rows] in R. apply in_map_iff in R as (r & <- & R). split.
    + intros N. apply in_map_iff in N as (x & N & _). discriminate.
    + now exists f, c, rs, r.
Qed.

Lemma combine_failure_keeps_disk (d : Os.fs) :
  (forall b, resp (combine_csv tokenize to_csv d) <> SendFile b) ->
  disk (combine_csv tokenize to_csv d) = d.
Proof.
  unfold combine_csv.
  destruct (Os.listdir d UPLOAD_FOLDER) as [names|e]; [|reflexivity].
  destruct (is_nil (filter allowed_file names)); [reflexivity|].
  destruct (check_files d (filter allowed_file names)) as [m|valid]; [reflexivity|].
  destruct (parse_all tokenize d _ valid) as [st|msgs]; [|reflexivity].
  destruct (is_nil (dfs st)); [reflexivity|].
  destruct (concat (dfs st)) as [df|e]; [|reflexivity].
  intros H. exfalso. exact (H _ eq_refl).
Qed.

(** The response is the download, or the file system is as it was. *)
Lemma combine_all_or_nothing_aux (d : Os.fs) :
  (exists b, resp (combine_csv tokenize to_csv d) = SendFile b) \/
  disk (combine_csv tokenize to_csv d) = d.
Proof.
  destruct (resp (combine_csv tokenize to_csv d)) as [| |b] eqn:R.
  - right. apply combine_failure_keeps_disk. intros b. rewrite R. discriminate.
  - right. apply combine_failure_keeps_disk. intros b. rewrite R. discriminate.
  - left. now exists b.
Qed.

(** What the deletion loop does to a key: nothing, or it deletes a regular
    file that one of its paths names. *)
Lemma delete_all_cases (k : Os.path) (paths : list string) :
  forall d,
  Os.lookup k (delete_all d paths) = Os.lookup k d \/
  (Os.lookup k (delete_all d paths) = None /\
   exists p c, In p paths /\ k = Os.resolve p /\
               Os.lookup k d = Some (Os.File false c)).
Proof.
  induction paths as [|q paths IH]; intros d; cbn; [now left|].
  destruct (Os.remove d q) as [d'|e] eqn:R.
  - pose proof (remove_lookup _ _ _ k R) as Hk.
    destruct (IH d') as [E|(E & p & c & I & Kp & Lp)].
    + rewrite E, Hk.
      destruct (Os.path_eq_dec k (Os.resolve q)) as [Kq|N]; [|now left].
      right. split; [reflexivity|].
      apply remove_ok_inv in R as (c & _ & Lq). exists q, c. subst k. auto.
    + right. split; [exact E|]. exists p, c. split; [now right|].
      split; [exact Kp|]. rewrite Hk in Lp.
      destruct (Os.path_eq_dec k (Os.resolve q)); [discriminate | exact Lp].
  - destruct (IH d) as [E|(E & p & c & I & Kp & Lp)]; [now left|].
    right. split; [exact E|]. exists p, c. auto.
Qed.

(** X5.  [combine_csv] changes nothing but the listed files.  In a tidy
    tree, an entry that differs after the request is a regular file that
    was a direct child of the storage area under a name with the accepted
    extension, and the difference is that it is gone. *)
Theorem combine_deletes_only_listed (d : Os.fs) (k : Os.path) :
  tidy d ->
  Os.lookup k (disk (combine_csv tokenize to_csv d)) <> Os.lookup k d ->
  exists f c,
    allowed_file f = true /\ plain_name f /\ k = staged_key f /\
    Os.lookup k d = Some (Os.File false c) /\
    Os.lookup k (disk (combine_csv tokenize to_csv d)) = None.
Proof.
  intros T Hk.
  destruct (combine_all_or_nothing_aux d) as [(b & H)|H];
    [|rewrite H in Hk; contradiction].
  destruct (combine_success_inv _ _ H) as (names & h & L & _ & _ & _ & _ & _ & _ & Hd).
  rewrite Hd in *.
  destruct (delete_all_cases k (map staged_path (filter allowed_file names)) d)
    as [E|(E & p & c & I & Kp & Lp)]; [contradiction|].
  apply in_map_iff in I as (f & <- & F). apply filter_In in F as [F A].
  destruct (listed_files_exist d names T L f F) as [P _].
  exists f, c. rewrite (resolve_staged f P) in Kp. auto.
Qed.

(** ** [upload_files] and [remove_file] *)

(** A save that succeeds writes the payload at the resolved path, which is
    neither empty nor ends with a separator. *)
Lemma save_ok_inv (d d1 : Os.fs) (p : string) (payload : list byte) :
  Os.save d p payload = Ok d1 ->
  d1 = Os.store (Os.resolve p) (Os.File false payload) d /\
  (p =? "") = false /\ Os.ends_with_sep p = false.
Proof.
  unfold Os.save, Os.stat.
  destruct (p =? "") eqn:E0; [discriminate|].
  destruct (Os.lookup (Os.resolve p) d) as [[i c|]|] eqn:K.
  - destruct (Os.ends_with_sep p) eqn:E1; [discriminate|].
    destruct i; [discriminate|]. intros H. injection H as <-. auto.
  - discriminate.
  - destruct (Os.ends_with_sep p) eqn:E1; [discriminate|].
    destruct (Os.lookup (Os.parent (Os.resolve p)) d) as [[? ?|]|]; try discriminate.
    intros H. injection H as <-. auto.
Qed.

(** What was saved is what is read back. *)
Lemma save_then_stat (d d1 : Os.fs) (p : string) (payload : list byte) :
  Os.save d p payload = Ok d1 -> Os.stat d1 p = Ok (Os.File false payload).
Proof.
  intros H. apply save_ok_inv in H as (-> & E0 & E1).
  unfold Os.stat. rewrite E0, lookup_store.
  destruct (Os.path_eq_dec (Os.resolve p) (Os.resolve p)); [|contradiction].
  now rewrite E1.
Qed.

Lemma staged_path_empty_name : Os.ends_with_sep (staged_path "") = true.
Proof.
  reflexivity.
Qed.

(** The loop body of [upload_files] either leaves the file system and the
    saved names as they are, or it stores the payload of an acceptable
    part under its sanitized name and records the name. *)
Lemma upload_one_cases (st : upload_state) (file : upload) :
  (up_disk (upload_one ascii_fold st file) = up_disk st /\
   saved_files (upload_one ascii_fold st file) = saved_files st) \/
  (acceptable file /\
   plain_name (secure_filename ascii_fold (filename file)) /\
   upload_one ascii_fold st file =
   mkUploadState
     (Os.store (staged_key (secure_filename ascii_fold (filename file)))
               (Os.File false (stream file)) (up_disk st))
     (up_flashes st)
     (saved_files st ++ [secure_filename ascii_fold (filename file)])).
Proof.
  unfold upload_one.
  destruct (negb (filename file =? "") && allowed_file (filename file)) eqn:A;
    [|now left].
  apply andb_true_iff in A as [_ A].
  destruct (Z.of_nat (List.length (stream file)) =? 0)%Z eqn:Z0; [now left|].
  destruct (MAX_CONTENT_LENGTH <? Z.of_nat (List.length (stream file)))%Z eqn:Z1;
    [now left|].
  set (s := secure_filename ascii_fold (filename file)).
  fold (staged_path s).
  destruct (Os.save (up_disk st) (staged_path s) (stream file)) as [d1|e] eqn:S;
    [|now left].
  assert (Hne : stream file <> []).
  { intros E. rewrite E in Z0. discriminate. }
  pose proof (save_then_stat _ _ _ _ S) as St.
  apply save_ok_inv in S as (-> & _ & E1).
  assert (P : plain_name s).
  { apply secure_filename_plain. fold s. intros E. rewrite E in E1.
    rewrite staged_path_empty_name in E1. discriminate. }
  unfold Os.path_exists, Os.read_bytes. rewrite St.
  destruct (stream file) as [|b0 bs] eqn:Sf; [contradiction|]. cbn [is_nil].
  right. split; [|split].
  - repeat split; [exact A | rewrite Sf; discriminate|].
    rewrite Sf. now apply Z.ltb_ge in Z1.
  - exact P.
  - rewrite (resolve_staged s P). reflexivity.
Qed.

Lemma upload_all_cases (k : Os.path) (files : list upload) :
  forall st,
  Os.lookup k (up_disk (fold_left (upload_one ascii_fold) files st)) =
    Os.lookup k (up_disk st) \/
  exists file,
    In file files /\ acceptable file /\
    plain_name (secure_filename ascii_fold (filename file)) /\
    k = staged_key (secure_filename ascii_fold (filename file)) /\
    Os.lookup k (up_disk (fold_left (upload_one ascii_fold) files st)) =
      Some (Os.File false (stream file)).
Proof.
  induction files as [|f files IH]; intros st; cbn [fold_left]; [now left|].
  destruct (IH (upload_one ascii_fold st f)) as [E|(file & I & H)].
  - rewrite E.
    destruct (upload_one_cases st f) as [[Ed _]|(A & P & Eu)]; [left; now rewrite Ed|].
    rewrite Eu. cbn [up_disk]. rewrite lookup_store.
    destruct (Os.path_eq_dec k (staged_key (secure_filename ascii_fold (filename f))))
      as [K|N]; [|now left].
    right. exists f. split; [now left|]. auto.
  - right. exists file. split; [now right | exact H].
Qed.

(** X6.  An upload request writes nowhere but into the storage area.  An
    entry that differs after the request is the direct child of the
    storage area named by [secure_filename] for a part of the request
    whose name is accepted, and it now is a regular file holding the
    payload of that part, which is not empty and not above the size
    limit. *)
Theorem upload_confined (d : Os.fs) (files : list upload) (k : Os.path) :
  Os.lookup k (disk (upload_files ascii_fold d files)) <> Os.lookup k d ->
  exists file,
    In file files /\ acceptable file /\
    plain_name (secure_filename ascii_fold (filename file)) /\
    k = staged_key (secure_filename ascii_fold (filename file)) /\
    Os.lookup k (disk (upload_files ascii_fold d files)) =
      Some (Os.File false (stream file)).
Proof.
  rewrite upload_files_disk. intros H.
  destruct (upload_all_cases k files (mkUploadState d [] [])) as [E|E];
    [contradiction | exact E].
Qed.

Lemma upload_all_saved (files : list upload) :
  forall st,
  (up_disk (fold_left (upload_one ascii_fold) files st) = up_disk st /\
   saved_files (fold_left (upload_one ascii_fold) files st) = saved_files st) \/
  (List.length (saved_files st)
     < List.length (saved_files (fold_left (upload_one ascii_fold) files st))
     <= List.length (saved_files st) + List.length files)%nat.
Proof.
  induction files as [|f files IH]; intros st; cbn [fold_left]; [now left|].
  destruct (upload_one_cases st f) as [[Ed Es]|(_ & _ & Eu)].
  - destruct (IH (upload_one ascii_fold st f)) as [[E1 E2]|E].
    + left. split; congruence.
    + right. rewrite Es in E. cbn [List.length]. lia.
  - assert (Hs : List.length (saved_files (upload_one ascii_fold st f)) =
                 S (List.length (saved_files st))).
    { rewrite Eu. cbn [saved_files]. rewrite length_app. cbn. lia. }
    right. destruct (IH (upload_one ascii_fold st f)) as [[_ E2]|E].
    + rewrite E2, Hs. cbn [List.length]. lia.
    + cbn [List.length]. lia.
Qed.

(** X7.  An upload request that does not report a positive number of
    uploaded files has left the file system as it was: either the last
    message is the count of the parts saved, between one and the number
    of parts, or nothing has changed. *)
Theorem upload_reports_or_keeps (d : Os.fs) (files : list upload) :
  disk (upload_files ascii_fold d files) = d \/
  exists msgs n,
    flashes (upload_files ascii_fold d files) = msgs ++ [Uploaded n] /\
    (0 < n <= List.length files)%nat.
Proof.
  unfold upload_files. destruct (is_nil files); [now left|].
  destruct (forallb (fun f => filename f =? "") files); [now left|].
  cbn [disk flashes].
  destruct (upload_all_saved files (mkUploadState d [] [])) as [[Ed _]|E];
    [now left|].
  right. cbn [saved_files List.length] in E.
  destruct (saved_files (fold_left (upload_one ascii_fold) files
                           (mkUploadState d [] []))) as [|s ss] eqn:S;
    [cbn in E; lia|].
  cbn [is_nil]. eexists. eexists. split; [reflexivity|]. cbn [List.length] in *. lia.
Qed.

Lemma lookup_store_same (k : Os.path) (n : Os.node) (d : Os.fs) :
  Os.lookup k (Os.store k n d) = Some n.
Proof.
  rewrite lookup_store. destruct (Os.path_eq_dec k k); congruence.
Qed.

Lemma children_store (dir k : Os.path) (n : Os.node) (name : string) (d : Os.fs) :
  Os.child_name dir k = Some name ->
  In name (Os.children dir (Os.store k n d)).
Proof.
  intros C. unfold Os.children. induction d as [|[k0 n0] d IH]; cbn.
  - rewrite C. now left.
  - destruct (Os.path_eq_dec k k0) as [<-|N]; cbn [flat_map fst].
    + rewrite C. now left.
    + apply in_or_app. right. exact IH.
Qed.

Lemma staged_key_differs (name : string) :
  staged_key name <> Os.resolve UPLOAD_FOLDER.
Proof.
  discriminate.
Qed.

(** The save of [upload_files] for a plain name succeeds when the storage
    area is a directory and the target is free or a regular file that can
    be written. *)
Lemma save_staged (d : Os.fs) (s : string) (payload : list byte) :
  Os.lookup (Os.resolve UPLOAD_FOLDER) d = Some Os.Dir ->
  plain_name s ->
  (forall c, Os.lookup (staged_key s) d <> Some (Os.File true c)) ->
  Os.lookup (staged_key s) d <> Some Os.Dir ->
  Os.save d (staged_path s) payload =
  Ok (Os.store (staged_key s) (Os.File false payload) d).
Proof.
  intros U P Hi Hd. unfold Os.save, Os.stat.
  assert (E0 : (staged_path s =? "") = false).
  { rewrite (staged_path_plain s P). reflexivity. }
  rewrite E0, (resolve_staged s P), (staged_path_no_trailing_sep s P).
  fold (staged_key s).
  destruct (Os.lookup (staged_key s) d) as [[[|] c|]|] eqn:K.
  - exfalso. now apply (Hi c).
  - reflexivity.
  - contradiction.
  - change (Os.parent (staged_key s)) with (Os.resolve UPLOAD_FOLDER).
    now rewrite U.
Qed.

(** The loop body on an acceptable part whose save goes through. *)
Lemma upload_one_saves (st : upload_state) (file : upload) :
  Os.lookup (Os.resolve UPLOAD_FOLDER) (up_disk st) = Some Os.Dir ->
  acceptable file ->
  plain_name (secure_filename ascii_fold (filename file)) ->
  (forall c, Os.lookup (staged_key (secure_filename ascii_fold (filename file)))
               (up_disk st) <> Some (Os.File true c)) ->
  Os.lookup (staged_key (secure_filename ascii_fold (filename file))) (up_disk st)
    <> Some Os.Dir ->
  upload_one ascii_fold st file =
  mkUploadState
    (Os.store (staged_key (secure_filename ascii_fold (filename file)))
              (Os.File false (stream file)) (up_disk st))
    (up_flashes st)
    (saved_files st ++ [secure_filename ascii_fold (filename file)]).
Proof.
  intros U (A & Hne & Hmax) P Hi Hd. unfold upload_one.
  assert (N : (filename file =? "") = false).
  { destruct (filename file); [discriminate | reflexivity]. }
  rewrite N, A. cbn [negb andb].
  assert (Z0 : (Z.of_nat (List.length (stream file)) =? 0)%Z = false).
  { destruct (stream file); [contradiction | reflexivity]. }
  assert (Z1 : (MAX_CONTENT_LENGTH <? Z.of_nat (List.length (stream file)))%Z = false).
  { now apply Z.ltb_ge. }
  rewrite Z0, Z1. fold (staged_path (secure_filename ascii_fold (filename file))).
  rewrite (save_staged _ _ _ U P Hi Hd).
  pose proof (save_then_stat _ _ _ _ (save_staged _ _ (stream file) U P Hi Hd)) as St.
  unfold Os.path_exists, Os.read_bytes. rewrite St.
  destruct (stream file) as [|b0 bs]; [contradiction | reflexivity].
Qed.

Lemma upload_single (d : Os.fs) (file : upload) :
  allowed_file (filename file) = true ->
  upload_files ascii_fold d [file] =
  let st := upload_one ascii_fold (mkUploadState d [] []) file in
  mkOutcome Redirect
    (up_flashes st ++
     [if is_nil (saved_files st) then NoneUploaded
      else Uploaded (List.length (saved_files st))])
    (up_disk st).
Proof.
  intros A. unfold upload_files. cbn [is_nil forallb fold_left].
  assert (N : (filename file =? "") = false).
  { destruct (filename file); [discriminate | reflexivity]. }
  rewrite N. reflexivity.
Qed.

Lemma staged_child (s : string) :
  Os.child_name (Os.resolve UPLOAD_FOLDER) (staged_key s) = Some s.
Proof.
  reflexivity.
Qed.

Lemma child_name_inv (k : Os.path) (x : string) :
  Os.child_name (Os.resolve UPLOAD_FOLDER) k = Some x -> k = staged_key x.
Proof.
  unfold Os.child_name. change (Os.resolve UPLOAD_FOLDER) with (false, [UPLOAD_FOLDER]).
  destruct k as [a comps]. cbn [fst snd].
  destruct a; cbn [Bool.eqb]; [discriminate|].
  destruct (Os.strip_prefix [UPLOAD_FOLDER] comps) as [[|y [|z l]]|] eqn:S;
    try discriminate.
  intros H. injection H as ->. apply strip_prefix_one in S. now subst.
Qed.

Lemma listdir_uploads (d : Os.fs) :
  Os.lookup (Os.resolve UPLOAD_FOLDER) d = Some Os.Dir ->
  Os.listdir d UPLOAD_FOLDER = Ok (Os.children (Os.resolve UPLOAD_FOLDER) d).
Proof.
  intros U. unfold Os.listdir, Os.stat.
  change (UPLOAD_FOLDER =? "") with false. cbv iota. now rewrite U.
Qed.

Lemma listdir_uploads_inv (d : Os.fs) (names : list string) :
  Os.listdir d UPLOAD_FOLDER = Ok names ->
  Os.lookup (Os.resolve UPLOAD_FOLDER) d = Some Os.Dir /\
  names = Os.children (Os.resolve UPLOAD_FOLDER) d.
Proof.
  unfold Os.listdir. destruct (Os.stat d UPLOAD_FOLDER) as [[i c|]|e] eqn:S;
    try discriminate.
  intros H. injection H as <-. split; [now apply stat_lookup | reflexivity].
Qed.

(** What [upload_files] does with one acceptable part. *)
Lemma upload_saves_and_lists_saved (d : Os.fs) (file : upload) :
  Os.lookup (Os.resolve UPLOAD_FOLDER) d = Some Os.Dir ->
  acceptable file ->
  plain_name (secure_filename ascii_fold (filename file)) ->
  (forall c, Os.lookup (staged_key (secure_filename ascii_fold (filename file))) d
             <> Some (Os.File true c)) ->
  Os.lookup (staged_key (secure_filename ascii_fold (filename file))) d <> Some Os.Dir ->
  upload_files ascii_fold d [file] =
    mkOutcome Redirect [Uploaded 1]
      (Os.store (staged_key (secure_filename ascii_fold (filename file)))
                (Os.File false (stream file)) d) /\
  Os.read_bytes (disk (upload_files ascii_fold d [file]))
    (staged_path (secure_filename ascii_fold (filename file))) = Ok (stream file) /\
  (allowed_file (secure_filename ascii_fold (filename file)) = true ->
   exists names,
     resp (index (disk (upload_files ascii_fold d [file]))) = Page names /\
     In (secure_filename ascii_fold (filename file)) names).
Proof.
  intros U A P Hi Hd. set (s := secure_filename ascii_fold (filename file)) in *.
  assert (E : upload_files ascii_fold d [file] =
              mkOutcome Redirect [Uploaded 1]
                (Os.store (staged_key s) (Os.File false (stream file)) d)).
  { rewrite (upload_single d file (proj1 A)).
    rewrite (upload_one_saves (mkUploadState d [] []) file U A P Hi Hd).
    reflexivity. }
  rewrite E. cbn [disk]. split; [reflexivity|]. split.
  - unfold Os.read_bytes.
    rewrite (save_then_stat _ _ _ _ (save_staged d s (stream file) U P Hi Hd)).
    reflexivity.
  - intros As. unfold index. rewrite listdir_uploads.
    + eexists. split; [reflexivity|]. apply filter_In. split; [|exact As].
      apply children_store, staged_child.
    + rewrite lookup_store.
      destruct (Os.path_eq_dec (Os.resolve UPLOAD_FOLDER) (staged_key s)) as [X|_];
        [discriminate X | exact U].
Qed.

(** *** [secure_filename] on its own results *)

Lemma string_map_id (f : ascii -> ascii) (p : ascii -> bool) (s : string) :
  (forall c, p c = true -> f c = c) ->
  string_forall p s = true -> string_map f s = s.
Proof.
  intros Hf. induction s as [|c s IH]; cbn; [reflexivity|].
  intros H. apply andb_true_iff in H as [H1 H2].
  now rewrite (Hf c H1), (IH H2).
Qed.

Lemma string_filter_id (p : ascii -> bool) (s : string) :
  string_forall p s = true -> string_filter p s = s.
Proof.
  induction s as [|c s IH]; cbn; [reflexivity|].
  intros H. apply andb_true_iff in H as [H1 H2]. now rewrite H1, (IH H2).
Qed.

Lemma split_by_plain (p : ascii -> bool) (s : string) :
  string_forall (fun c => negb (p c)) s = true ->
  Werkzeug.split_by p s = [s].
Proof.
  induction s as [|c s IH]; cbn; [reflexivity|].
  intros H. apply andb_true_iff in H as [H1 H2].
  apply negb_true_iff in H1. now rewrite H1, (IH H2).
Qed.

Lemma safe_char_no_space (c : ascii) :
  Werkzeug.safe_char c = true -> negb (Werkzeug.is_space c) = true.
Proof.
  destruct c as [[] [] [] [] [] [] [] []]; vm_compute; congruence.
Qed.

Lemma safe_char_keeps (c : ascii) :
  Werkzeug.safe_char c = true -> (if Ascii.eqb c "/" then " "%char else c) = c.
Proof.
  intros H. apply safe_char_no_sep, negb_true_iff in H. now rewrite H.
Qed.

Lemma rstrip_idem (p : ascii -> bool) (s : string) :
  Werkzeug.rstrip p (Werkzeug.rstrip p s) = Werkzeug.rstrip p s.
Proof.
  induction s as [|c s IH]; cbn; [reflexivity|].
  destruct (Werkzeug.rstrip p s) as [|c' r] eqn:R.
  - destruct (p c) eqn:E; cbn; [reflexivity | now rewrite E].
  - cbn [Werkzeug.rstrip]. cbn [Werkzeug.rstrip] in IH. rewrite IH. reflexivity.
Qed.

Lemma lstrip_fix (p : ascii -> bool) (s : string) :
  match s with String c _ => p c = false | EmptyString => True end ->
  Werkzeug.lstrip p s = s.
Proof.
  destruct s as [|c s]; cbn; [reflexivity|]. now intros ->.
Qed.

Lemma strip_idem (p : ascii -> bool) (s : string) :
  Werkzeug.strip p (Werkzeug.strip p s) = Werkzeug.strip p s.
Proof.
  unfold Werkzeug.strip.
  rewrite (lstrip_fix p (Werkzeug.rstrip p (Werkzeug.lstrip p s))).
  - apply rstrip_idem.
  - pose proof (rstrip_head p (Werkzeug.lstrip p s)) as R.
    pose proof (lstrip_head p s) as L.
    destruct (Werkzeug.rstrip p (Werkzeug.lstrip p s)) as [|c r]; [exact I|].
    destruct R as (r' & R). now rewrite R in L.
Qed.

(** A name that [secure_filename] has returned is returned as it is, when
    folding to ASCII leaves ASCII text alone. *)
Lemma secure_filename_idem (name : string) :
  (forall x, string_forall Werkzeug.safe_char x = true -> ascii_fold x = x) ->
  secure_filename ascii_fold (secure_filename ascii_fold name) =
  secure_filename ascii_fold name.
Proof.
  intros Hfold. pose proof (secure_filename_safe name) as S.
  set (s := secure_filename ascii_fold name) in *.
  assert (Es : s = Werkzeug.strip Werkzeug.edge_char s).
  { unfold s, secure_filename, Werkzeug.secure_filename. now rewrite strip_idem. }
  unfold secure_filename, Werkzeug.secure_filename at 1.
  rewrite (Hfold s S).
  rewrite (string_map_id _ _ s safe_char_keeps S).
  assert (J : join "_" (Werkzeug.py_split s) = s).
  { unfold Werkzeug.py_split.
    rewrite (split_by_plain _ s (string_forall_impl _ _ _ safe_char_no_space S)).
    destruct s; reflexivity. }
  rewrite J, (string_filter_id _ s S). now rewrite <- Es.
Qed.

Lemma unlink_store_absent (k : Os.path) (n : Os.node) (d : Os.fs) :
  Os.lookup k d = None -> Os.unlink k (Os.store k n d) = d.
Proof.
  unfold Os.unlink. induction d as [|[k0 n0] d IH]; cbn.
  - intros _. now rewrite path_eqb_refl.
  - destruct (Os.path_eq_dec k k0) as [E|N]; [discriminate|].
    intros H. cbn. unfold Os.path_eqb at 1.
    destruct (Os.path_eq_dec k k0); [contradiction|]. cbn. now rewrite IH.
Qed.

Lemma remove_staged (d : Os.fs) (s : string) (c : list byte) :
  plain_name s ->
  Os.lookup (staged_key s) d = Some (Os.File false c) ->
  Os.path_exists d (staged_path s) = true /\
  Os.remove d (staged_path s) = Ok (Os.unlink (staged_key s) d).
Proof.
  intros P K.
  assert (St : Os.stat d (staged_path s) = Ok (Os.File false c)).
  { unfold Os.stat. rewrite (staged_path_plain s P) at 1.
    cbn [append String.eqb Ascii.eqb Bool.eqb UPLOAD_FOLDER].
    rewrite (resolve_staged s P), (staged_path_no_trailing_sep s P).
    fold (staged_key s). now rewrite K. }
  unfold Os.path_exists, Os.remove. rewrite St, (resolve_staged s P). auto.
Qed.

(** What [remove_file] does after [upload_files] has saved one part. *)
Lemma upload_then_remove_saved (d : Os.fs) (file : upload) :
  (forall x, string_forall Werkzeug.safe_char x = true -> ascii_fold x = x) ->
  Os.lookup (Os.resolve UPLOAD_FOLDER) d = Some Os.Dir ->
  acceptable file ->
  plain_name (secure_filename ascii_fold (filename file)) ->
  (forall c, Os.lookup (staged_key (secure_filename ascii_fold (filename file))) d
             <> Some (Os.File true c)) ->
  Os.lookup (staged_key (secure_filename ascii_fold (filename file))) d <> Some Os.Dir ->
  flashes (remove_file ascii_fold (disk (upload_files ascii_fold d [file]))
             (secure_filename ascii_fold (filename file))) =
    [Removed (secure_filename ascii_fold (filename file))] /\
  Os.lookup (staged_key (secure_filename ascii_fold (filename file)))
    (disk (remove_file ascii_fold (disk (upload_files ascii_fold d [file]))
             (secure_filename ascii_fold (filename file)))) = None /\
  (Os.lookup (staged_key (secure_filename ascii_fold (filename file))) d = None ->
   disk (remove_file ascii_fold (disk (upload_files ascii_fold d [file]))
           (secure_filename ascii_fold (filename file))) = d).
Proof.
  intros Hfold U A P Hi Hd.
  rewrite (upload_single d file (proj1 A)).
  rewrite (upload_one_saves (mkUploadState d [] []) file U A P Hi Hd).
  cbn [disk up_disk]. unfold remove_file.
  rewrite (secure_filename_idem _ Hfold).
  set (s := secure_filename ascii_fold (filename file)) in *.
  fold (staged_path s).
  destruct (remove_staged (Os.store (staged_key s) (Os.File false (stream file)) d)
              s (stream file) P (lookup_store_same _ _ _)) as [-> ->].
  cbn [flashes disk]. split; [reflexivity|]. split.
  - rewrite lookup_unlink. destruct (Os.path_eq_dec (staged_key s) (staged_key s));
      congruence.
  - apply unlink_store_absent.
Qed.

(** X10.  Removing twice.  After a remove request that reported the
    removal, the same request reports that the file is not found and
    changes nothing. *)
Theorem remove_twice (d : Os.fs) (name : string) :
  flashes (remove_file ascii_fold d name) = [Removed name] ->
  remove_file ascii_fold (disk (remove_file ascii_fold d name)) name =
  mkOutcome Redirect [RemoveNotFound name] (disk (remove_file ascii_fold d name)).
Proof.
  unfold remove_file at 1 3 4.
  set (p := Os.path_join UPLOAD_FOLDER (secure_filename ascii_fold name)).
  destruct (Os.path_exists d p); [|discriminate].
  destruct (Os.remove d p) as [d'|e] eqn:R; [|discriminate].
  intros _. cbn [disk]. unfold remove_file. fold p.
  assert (K : Os.lookup (Os.resolve p) d' = None).
  { rewrite (remove_lookup _ _ _ _ R).
    destruct (Os.path_eq_dec (Os.resolve p) (Os.resolve p)); congruence. }
  unfold Os.path_exists, Os.stat. rewrite K.
  destruct (p =? ""); reflexivity.
Qed.

(** ** The life cycle of the storage area *)

Lemma delete_all_incl (paths : list string) :
  forall d e, In e (delete_all d paths) -> In e d.
Proof.
  induction paths as [|q paths IH]; intros d e; cbn; [auto|].
  destruct (Os.remove d q) as [d'|x] eqn:R; [|apply IH].
  intros I. apply IH in I. unfold Os.remove in R.
  destruct (Os.stat d q) as [[[|] c|]|]; try discriminate.
  injection R as <-. unfold Os.unlink in I. now apply filter_In in I as [I _].
Qed.

Lemma in_lookup_some (d : Os.fs) (k : Os.path) (n : Os.node) :
  In (k, n) d -> Os.lookup k d <> None.
Proof.
  intros I H. apply lookup_none in H. apply H.
  apply in_map_iff. now exists (k, n).
Qed.

Lemma filter_none (A : Type) (p : A -> bool) (l : list A) :
  (forall x, In x l -> p x = false) -> filter p l = [].
Proof.
  induction l as [|x l IH]; cbn; intros H; [reflexivity|].
  rewrite (H x (or_introl eq_refl)). apply IH. intros y Y. apply H. now right.
Qed.

Lemma thaw_fixed_no_immutable (d : Os.fs) (k : Os.path) (c : list byte) :
  thaw d = d -> Os.lookup k d <> Some (Os.File true c).
Proof.
  intros T H. pose proof (lookup_thaw k d) as L. rewrite T, H in L. discriminate.
Qed.

(** X11.  A successful combine empties the storage area of CSV files.  In
    a tidy tree without immutable files, after a combine that returned
    the download, a second combine finds no CSV file: it answers with
    that message and changes nothing. *)
Theorem combine_twice (d : Os.fs) (b : list byte) :
  tidy d ->
  thaw d = d ->
  resp (combine_csv tokenize to_csv d) = SendFile b ->
  combine_csv tokenize to_csv (disk (combine_csv tokenize to_csv d)) =
  mkOutcome Redirect [NoCsvFound] (disk (combine_csv tokenize to_csv d)).
Proof.
  intros T Hthaw H.
  destruct (combine_success_inv _ _ H) as (names & h & L & _ & Hall & _ & _ & _ & _ & Hd).
  rewrite Hd. set (paths := map staged_path (filter allowed_file names)) in *.
  destruct (listdir_uploads_inv d names L) as [U En].
  assert (U' : Os.lookup (Os.resolve UPLOAD_FOLDER) (delete_all d paths) = Some Os.Dir)
    by (apply delete_all_kept; [discriminate | exact U]).
  unfold combine_csv at 1. rewrite (listdir_uploads _ U').
  rewrite filter_none; [reflexivity|].
  intros x X. destruct (allowed_file x) eqn:A; [exfalso | reflexivity].
  unfold Os.children in X. apply in_flat_map in X as ([k n] & I & X). cbn [fst] in X.
  destruct (Os.child_name (Os.resolve UPLOAD_FOLDER) k) as [y|] eqn:C; [|destruct X].
  destruct X as [<-|[]]. apply child_name_inv in C. subst k.
  pose proof (delete_all_incl paths d _ I) as Id.
  assert (Xn : In y names).
  { rewrite En. unfold Os.children. apply in_flat_map.
    exists (staged_key y, n). split; [exact Id|]. cbn [fst].
    rewrite staged_child. now left. }
  assert (F : In y (filter allowed_file names)) by (apply filter_In; now split).
  destruct (listed_files_exist d names T L y Xn) as [P _].
  assert (Ip : In (staged_path y) paths) by (now apply in_map).
  pose proof (Hall _ Ip) as Hs. unfold status_of, Os.read_bytes in Hs.
  destruct (Os.stat d (staged_path y)) as [[i c|]|e] eqn:S.
  - destruct i.
    + apply stat_lookup in S. now apply (thaw_fixed_no_immutable d _ c Hthaw) in S.
    + pose proof (delete_all_gone (staged_path y) paths d c Ip S) as G.
      rewrite (resolve_staged y P) in G. fold (staged_key y) in G.
      now apply (in_lookup_some _ _ _ I).
  - now apply (Hs IsADirectoryError).
  - now apply (Hs e).
Qed.

Lemma store_absent (k : Os.path) (n : Os.node) (d : Os.fs) :
  Os.lookup k d = None -> Os.store k n d = d ++ [(k, n)].
Proof.
  induction d as [|[k0 n0] d IH]; cbn; [reflexivity|].
  destruct (Os.path_eq_dec k k0); [discriminate|]. intros H. now rewrite IH.
Qed.

Lemma children_app (dir : Os.path) (d1 d2 : Os.fs) :
  Os.children dir (d1 ++ d2) = Os.children dir d1 ++ Os.children dir d2.
Proof.
  unfold Os.children. apply flat_map_app.
Qed.

(** What [combine_csv] does after [upload_files] has saved one part into
    a storage area without CSV files. *)
Lemma upload_then_combine_saved (d : Os.fs) (names : list string) (file : upload)
    (header : list string) (records : list (list string)) :
  Os.listdir d UPLOAD_FOLDER = Ok names ->
  filter allowed_file names = [] ->
  acceptable file ->
  plain_name (secure_filename ascii_fold (filename file)) ->
  allowed_file (secure_filename ascii_fold (filename file)) = true ->
  tokenize (stream file) = Ok (header, records) ->
  header <> [] ->
  records <> [] ->
  combine_csv tokenize to_csv (disk (upload_files ascii_fold d [file])) =
  mkOutcome
    (SendFile (list_byte_of_string
                 (to_csv (mkFrame header (map (map Str) records)))))
    [] d.
Proof.
  intros L F A P As Tk Hh Hr.
  set (s := secure_filename ascii_fold (filename file)) in *.
  destruct (listdir_uploads_inv d names L) as [U En].
  assert (K : Os.lookup (staged_key s) d = None).
  { destruct (Os.lookup (staged_key s) d) as [n|] eqn:K; [exfalso | reflexivity].
    apply lookup_in in K.
    assert (X : In s (filter allowed_file names)).
    { apply filter_In. split; [|exact As]. rewrite En. unfold Os.children.
      apply in_flat_map. exists (staged_key s, n). split; [exact K|].
      cbn [fst]. rewrite staged_child. now left. }
    rewrite F in X. destruct X. }
  assert (Hi : forall c, Os.lookup (staged_key s) d <> Some (Os.File true c))
    by (intros c; rewrite K; discriminate).
  assert (Hd : Os.lookup (staged_key s) d <> Some Os.Dir)
    by (rewrite K; discriminate).
  rewrite (upload_single d file (proj1 A)).
  rewrite (upload_one_saves (mkUploadState d [] []) file U A P Hi Hd).
  cbn [disk up_disk]. fold s. rewrite (store_absent _ _ _ K).
  set (d1 := d ++ [(staged_key s, Os.File false (stream file))]).
  assert (K1 : Os.lookup (staged_key s) d1 = Some (Os.File false (stream file))).
  { unfold d1. rewrite <- (store_absent _ _ _ K). apply lookup_store_same. }
  assert (U1 : Os.lookup (Os.resolve UPLOAD_FOLDER) d1 = Some Os.Dir).
  { unfold d1. rewrite <- (store_absent _ (Os.File false (stream file)) _ K), lookup_store.
    destruct (Os.path_eq_dec (Os.resolve UPLOAD_FOLDER) (staged_key s)) as [X|_];
      [discriminate X | exact U]. }
  assert (L1 : Os.listdir d1 UPLOAD_FOLDER = Ok (names ++ [s])).
  { rewrite (listdir_uploads _ U1). unfold d1. rewrite children_app, <- En.
    unfold Os.children. cbn [flat_map fst]. rewrite staged_child. reflexivity. }
  assert (F1 : filter allowed_file (names ++ [s]) = [s]).
  { rewrite filter_app, F. cbn. now rewrite As. }
  destruct (remove_staged d1 s (stream file) P K1) as [Ex Rm].
  assert (St : status_of tokenize d1 (staged_path s) =
               Accepted (mkFrame header (map (map Str) records))).
  { unfold status_of, Os.read_bytes, read_csv.
    unfold Os.remove in Rm.
    destruct (Os.stat d1 (staged_path s)) as [[[|] c|]|e] eqn:S; try discriminate.
    apply stat_lookup in S. rewrite (resolve_staged s P) in S.
    fold (staged_key s) in S. rewrite K1 in S. injection S as <-.
    destruct A as (_ & Hne & _).
    destruct (stream file) as [|b0 bs] eqn:Sf; [contradiction|].
    rewrite Tk. cbn [columns rows].
    destruct header; [contradiction|]. destruct records; [contradiction|].
    reflexivity. }
  rewrite (combine_success d1 (names ++ [s]) header L1); rewrite F1; cbn [map].
  - unfold accepted, warnings. cbn [flat_map]. rewrite St. cbn [app flat_map rows].
    rewrite app_nil_r. cbn [delete_all]. rewrite Rm.
    unfold d1. rewrite <- (store_absent _ _ _ K), (unlink_store_absent _ _ _ K).
    reflexivity.
  - intros p [<-|[]] e. rewrite St. discriminate.
  - unfold accepted. cbn [flat_map]. rewrite St. discriminate.
  - unfold accepted. cbn [flat_map]. rewrite St. intros df [<-|[]]. reflexivity.
Qed.

(** *** Requests that pass the limit of Flask *)

Lemma post_upload_passed (d : Os.fs) (rq : request) :
  (req_length rq <= MAX_CONTENT_LENGTH)%Z ->
  post_upload ascii_fold d rq = Some (upload_files ascii_fold d (req_files rq)).
Proof.
  intros H. unfold post_upload. apply Z.ltb_ge in H. now rewrite H.
Qed.

(** A part of a request that passes the limit passes the size check of
    [upload_files] too. *)
Lemma framed_acceptable (rq : request) (file : upload) :
  req_files rq = [file] ->
  framed rq ->
  (req_length rq <= MAX_CONTENT_LENGTH)%Z ->
  allowed_file (filename file) = true ->
  stream file <> [] ->
  acceptable file.
Proof.
  intros E F H A N. unfold framed in F. rewrite E in F. cbn in F.
  repeat split; [exact A | exact N | lia].
Qed.

(** A request with a part of the size of the limit or more is refused as a
    whole: the size check of [upload_files] is never the one that rejects
    a part. *)
Lemma post_upload_too_large (d : Os.fs) (rq : request) (file : upload) :
  framed rq ->
  In file (req_files rq) ->
  (MAX_CONTENT_LENGTH <= Z.of_nat (List.length (stream file)))%Z ->
  post_upload ascii_fold d rq = None.
Proof.
  intros F I H. unfold post_upload.
  assert (T : (Z.of_nat (List.length (stream file)) <= payload_total (req_files rq))%Z).
  { clear F. induction (req_files rq) as [|g parts IH]; [destruct I|].
    cbn [payload_total fold_right]. fold (payload_total parts).
    assert (P : (0 <= payload_total parts)%Z).
    { clear. induction parts as [|x parts IH]; cbn; [lia|].
      fold (payload_total parts). lia. }
    destruct I as [->|I]; [lia|]. specialize (IH I). lia. }
  unfold framed in F.
  replace (MAX_CONTENT_LENGTH <? req_length rq)%Z with true; [reflexivity|].
  symmetry. apply Z.ltb_lt. lia.
Qed.

(** X8.  An accepted part is saved and shown.  Take a request within the
    limit of Flask that holds one part, with a name [allowed_file]
    accepts and a payload that is not empty.  When the storage area is a
    directory and the sanitized name is free or names a regular file that
    can be written, the request is answered by [upload_files] and reports
    one uploaded file; the file system then holds the payload, whole,
    under the sanitized name, replacing what was there; and [index]
    lists the name, provided the sanitized name still has the accepted
    extension. *)
Theorem upload_saves_and_lists (d : Os.fs) (rq : request) (file : upload) :
  req_files rq = [file] ->
  framed rq ->
  (req_length rq <= MAX_CONTENT_LENGTH)%Z ->
  Os.lookup (Os.resolve UPLOAD_FOLDER) d = Some Os.Dir ->
  allowed_file (filename file) = true ->
  stream file <> [] ->
  plain_name (secure_filename ascii_fold (filename file)) ->
  (forall c, Os.lookup (staged_key (secure_filename ascii_fold (filename file))) d
             <> Some (Os.File true c)) ->
  Os.lookup (staged_key (secure_filename ascii_fold (filename file))) d <> Some Os.Dir ->
  post_upload ascii_fold d rq =
    Some (mkOutcome Redirect [Uploaded 1]
            (Os.store (staged_key (secure_filename ascii_fold (filename file)))
                      (Os.File false (stream file)) d)) /\
  Os.read_bytes
    (Os.store (staged_key (secure_filename ascii_fold (filename file)))
              (Os.File false (stream file)) d)
    (staged_path (secure_filename ascii_fold (filename file))) = Ok (stream file) /\
  (allowed_file (secure_filename ascii_fold (filename file)) = true ->
   exists names,
     resp (index (Os.store (staged_key (secure_filename ascii_fold (filename file)))
                           (Os.File false (stream file)) d)) = Page names /\
     In (secure_filename ascii_fold (filename file)) names).
Proof.
  intros E F H U A N P Hi Hd.
  pose proof (framed_acceptable rq file E F H A N) as Acc.
  destruct (upload_saves_and_lists_saved d file U Acc P Hi Hd) as (E1 & E2 & E3).
  rewrite (post_upload_passed d rq H), E, E1. rewrite E1 in E2, E3. auto.
Qed.

(** X9.  What was uploaded can be removed under the name the listing
    shows.  After a request within the limit of Flask has uploaded one
    accepted part, a remove request for the sanitized name deletes that
    file and reports it; if the name was free before the upload, the
    file system is back to what it was.  This needs the folding to ASCII
    to leave safe ASCII names alone, as the normalization does. *)
Theorem upload_then_remove (d : Os.fs) (rq : request) (file : upload) :
  (forall x, string_forall Werkzeug.safe_char x = true -> ascii_fold x = x) ->
  req_files rq = [file] ->
  framed rq ->
  (req_length rq <= MAX_CONTENT_LENGTH)%Z ->
  Os.lookup (Os.resolve UPLOAD_FOLDER) d = Some Os.Dir ->
  allowed_file (filename file) = true ->
  stream file <> [] ->
  plain_name (secure_filename ascii_fold (filename file)) ->
  (forall c, Os.lookup (staged_key (secure_filename ascii_fold (filename file))) d
             <> Some (Os.File true c)) ->
  Os.lookup (staged_key (secure_filename ascii_fold (filename file))) d <> Some Os.Dir ->
  exists o,
    post_upload ascii_fold d rq = Some o /\
    flashes (remove_file ascii_fold (disk o)
               (secure_filename ascii_fold (filename file))) =
      [Removed (secure_filename ascii_fold (filename file))] /\
    Os.lookup (staged_key (secure_filename ascii_fold (filename file)))
      (disk (remove_file ascii_fold (disk o)
               (secure_filename ascii_fold (filename file)))) = None /\
    (Os.lookup (staged_key (secure_filename ascii_fold (filename file))) d = None ->
     disk (remove_file ascii_fold (disk o)
             (secure_filename ascii_fold (filename file))) = d).
Proof.
  intros Hfold E F H U A N P Hi Hd.
  pose proof (framed_acceptable rq file E F H A N) as Acc.
  exists (upload_files ascii_fold d [file]). split.
  - rewrite (post_upload_passed d rq H), E. reflexivity.
  - exact (upload_then_remove_saved d file Hfold U Acc P Hi Hd).
Qed.

(** X12.  Upload, then combine.  Into a storage area that lists no CSV
    file, a request within the limit of Flask uploads one accepted part
    whose sanitized name keeps the accepted extension and whose payload
    parses to a header with columns and at least one record.  The combine
    that follows returns the serialization of exactly that table, each
    field as a string, flashes nothing, and leaves the file system as it
    was before the upload. *)
Theorem upload_then_combine (d : Os.fs) (names : list string) (rq : request)
    (file : upload) (header : list string) (records : list (list string)) :
  Os.listdir d UPLOAD_FOLDER = Ok names ->
  filter allowed_file names = [] ->
  req_files rq = [file] ->
  framed rq ->
  (req_length rq <= MAX_CONTENT_LENGTH)%Z ->
  allowed_file (filename file) = true ->
  stream file <> [] ->
  plain_name (secure_filename ascii_fold (filename file)) ->
  allowed_file (secure_filename ascii_fold (filename file)) = true ->
  tokenize (stream file) = Ok (header, records) ->
  header <> [] ->
  records <> [] ->
  exists o,
    post_upload ascii_fold d rq = Some o /\
    combine_csv tokenize to_csv (disk o) =
    mkOutcome
      (SendFile (list_byte_of_string
                   (to_csv (mkFrame header (map (map Str) records)))))
      [] d.
Proof.
  intros L Fn E F H A N P As Tk Hh Hr.
  pose proof (framed_acceptable rq file E F H A N) as Acc.
  exists (upload_files ascii_fold d [file]). split.
  - rewrite (post_upload_passed d rq H), E. reflexivity.
  - exact (upload_then_combine_saved d names file header records L Fn Acc P As Tk Hh Hr).
Qed.

(** ** [index] *)

(** X13.  When the storage area is a directory, [index] renders, without
    a message and without touching the file system, exactly the names
    with the accepted extension that are entries of the storage area. *)
Theorem index_lists_staged (d : Os.fs) :
  Os.lookup (Os.resolve UPLOAD_FOLDER) d = Some Os.Dir ->
  exists names,
    index d = mkOutcome (Page names) [] d /\
    forall f, In f names <->
              allowed_file f = true /\ Os.lookup (staged_key f) d <> None.
Proof.
  intros U. unfold index. rewrite (listdir_uploads d U).
  eexists. split; [reflexivity|]. intros f. rewrite filter_In. split.
  - intros [I A]. split; [exact A|]. unfold Os.children in I.
    apply in_flat_map in I as ([k n] & I & X). cbn [fst] in X.
    destruct (Os.child_name (Os.resolve UPLOAD_FOLDER) k) as [y|] eqn:C; [|destruct X].
    destruct X as [<-|[]]. apply child_name_inv in C. subst k.
    now apply (in_lookup_some _ _ n).
  - intros [A K]. split; [|exact A].
    destruct (Os.lookup (staged_key f) d) as [n|] eqn:E; [|contradiction].
    apply lookup_in in E. unfold Os.children. apply in_flat_map.
    exists (staged_key f, n). split; [exact E|]. cbn [fst].
    rewrite staged_child. now left.
Qed.

End Properties.

(** * The combined output as text *)








(** * The properties on concrete storage areas *)

Lemma no_files_found_witness :
  Plain.combine [Plain.uploads; notes_txt] =
  mkOutcome Redirect [NoCsvFound] [Plain.uploads; notes_txt].
Proof.
  apply (no_files_found Plain.tokenize Plain.to_csv
           [Plain.uploads; notes_txt] ["notes.txt"]); reflexivity.
Defined.

Lemma combine_concatenates_witness :
  Plain.combine [Plain.uploads; A_csv; H_csv; E_csv; B_csv] =
  mkOutcome
    (SendFile (list_byte_of_string
       ("a,b" ++ Plain.LF ++ "1,2" ++ Plain.LF ++ "3,4" ++ Plain.LF)%string))
    [EmptyOrInvalid "H.csv"; FileEmpty "E.csv"]
    [Plain.uploads].
Proof.
  unfold Plain.combine.
  rewrite (combine_concatenates Plain.tokenize Plain.to_csv
             [Plain.uploads; A_csv; H_csv; E_csv; B_csv]
             ["A.csv"; "H.csv"; "E.csv"; "B.csv"] frame_A [frame_B]).
  - reflexivity.
  - reflexivity.
  - intros p H e. each_listed H.
  - reflexivity.
  - intros df H. each_listed H.
Defined.

(** C1, as it is stated, fails on a storage area that holds one file made
    of a header line only: the file is not empty, it parses, there is no
    other header to disagree with, and yet there is no download. *)
Lemma header_only_storage_fails :
  Os.listdir [Plain.uploads; H_csv] UPLOAD_FOLDER = Ok ["H.csv"] /\
  (exists content df,
     Os.read_bytes [Plain.uploads; H_csv] (staged_path "H.csv") = Ok content /\
     content <> [] /\
     read_csv Plain.tokenize content false = Ok df /\
     columns df = ["a"; "b"]) /\
  Plain.combine [Plain.uploads; H_csv] =
  mkOutcome Redirect [EmptyOrInvalid "H.csv"; NoValidData] [Plain.uploads; H_csv].
Proof.
  split; [reflexivity|]. split; [|reflexivity].
  eexists. eexists. split; [reflexivity|]. split; [discriminate|].
  split; reflexivity.
Qed.

Lemma header_mismatch_aborts_witness :
  Plain.combine [Plain.uploads; A_csv; C_csv; B_csv] =
  mkOutcome Redirect [HeaderMismatch] [Plain.uploads; A_csv; C_csv; B_csv].
Proof.
  apply (header_mismatch_aborts Plain.tokenize Plain.to_csv
           [Plain.uploads; A_csv; C_csv; B_csv] ["A.csv"; "C.csv"; "B.csv"]
           ["A.csv"] "C.csv" ["B.csv"] frame_A [] frame_C).
  - reflexivity.
  - reflexivity.
  - intros g H. each_listed H.
  - intros p H e. each_listed H.
  - reflexivity.
  - intros x [].
  - reflexivity.
  - discriminate.
Defined.

Lemma success_deletes_listing_witness :
  exists names,
    Os.listdir [Plain.uploads; A_csv; P_csv; E_csv; notes_txt; etc_passwd]
      UPLOAD_FOLDER = Ok names /\
    (forall f, In f (filter allowed_file names) ->
       exists n,
         Os.stat [Plain.uploads; A_csv; P_csv; E_csv; notes_txt; etc_passwd]
           (staged_path f) = Ok n /\
         Os.lookup (Os.resolve (staged_path f))
           (disk (Plain.combine
              [Plain.uploads; A_csv; P_csv; E_csv; notes_txt; etc_passwd])) =
         match n with
         | Os.File false _ => None
         | _ => Some n
         end) /\
    (forall k,
       (forall f, In f (filter allowed_file names) ->
          k <> Os.resolve (staged_path f)) ->
       Os.lookup k (disk (Plain.combine
          [Plain.uploads; A_csv; P_csv; E_csv; notes_txt; etc_passwd])) =
       Os.lookup k [Plain.uploads; A_csv; P_csv; E_csv; notes_txt; etc_passwd]) /\
    (forall d',
       thaw d' = thaw [Plain.uploads; A_csv; P_csv; E_csv; notes_txt; etc_passwd] ->
       resp (Plain.combine d') =
       SendFile (list_byte_of_string
         ("a,b" ++ Plain.LF ++ "1,2" ++ Plain.LF ++ "9,9" ++ Plain.LF)%string)).
Proof.
  apply (success_deletes_listing Plain.tokenize Plain.to_csv
           [Plain.uploads; A_csv; P_csv; E_csv; notes_txt; etc_passwd]).
  reflexivity.
Defined.

(** The same run, evaluated: the pinned file survives the deletion loop,
    the other listed files are gone, and the download is there. *)
Example pinned_file_survives :
  Plain.combine [Plain.uploads; A_csv; P_csv; E_csv; notes_txt; etc_passwd] =
  mkOutcome
    (SendFile (list_byte_of_string
       ("a,b" ++ Plain.LF ++ "1,2" ++ Plain.LF ++ "9,9" ++ Plain.LF)%string))
    [FileEmpty "E.csv"]
    [Plain.uploads; P_csv; notes_txt; etc_passwd].
Proof.
  reflexivity.
Qed.

Lemma parse_error_aborts_witness :
  Plain.combine [Plain.uploads; A_csv; E_csv; N_csv; B_csv] =
  mkOutcome Redirect
    [FileEmpty "E.csv";
     ReadError "N.csv" (ParserError "No columns to parse from file")]
    [Plain.uploads; A_csv; E_csv; N_csv; B_csv].
Proof.
  apply (parse_error_aborts Plain.tokenize Plain.to_csv
           [Plain.uploads; A_csv; E_csv; N_csv; B_csv]
           ["A.csv"; "E.csv"; "N.csv"; "B.csv"]
           ["A.csv"; "E.csv"] "N.csv" ["B.csv"] ["a"; "b"]
           (list_byte_of_string Plain.LF)).
  - reflexivity.
  - reflexivity.
  - intros g H. each_listed H.
  - intros p H e. each_listed H.
  - intros x H. each_listed H.
  - reflexivity.
  - discriminate.
  - reflexivity.
Defined.

(** A record longer than the one before it is an error as well; a first
    record longer than the header is none: what it has in front is the
    row index, which the download does not show. *)
Example long_records :
  Plain.combine [Plain.uploads; A_csv; L_csv] =
    mkOutcome Redirect [ReadError "L.csv" (ParserError "Error tokenizing data")]
      [Plain.uploads; A_csv; L_csv] /\
  Plain.combine [Plain.uploads; A_csv; E_csv; M_csv; B_csv] =
    mkOutcome
      (SendFile (list_byte_of_string
         ("a,b" ++ Plain.LF ++ "1,2" ++ Plain.LF ++ "2,3" ++ Plain.LF
          ++ "3,4" ++ Plain.LF)%string))
      [FileEmpty "E.csv"] [Plain.uploads].
Proof.
  split; reflexivity.
Qed.


(** The writer on fields that need quoting, and on a record of one empty
    field. *)
Example write_row_examples :
  Csv.write_row false ["a"; ""; "c"] = ("a,,c" ++ Csv.LF)%string /\
  Csv.write_row false [""; ""] = ("," ++ Csv.LF)%string /\
  Csv.write_row false [""] = (Csv.QUOTE ++ Csv.QUOTE ++ Csv.LF)%string /\
  Csv.write_row false ["a,b"; "c"] =
    (Csv.QUOTE ++ "a,b" ++ Csv.QUOTE ++ ",c" ++ Csv.LF)%string /\
  Csv.write_row false [("a" ++ Csv.QUOTE ++ "b")%string] =
    (Csv.QUOTE ++ "a" ++ Csv.QUOTE ++ Csv.QUOTE ++ "b" ++ Csv.QUOTE ++ Csv.LF)%string /\
  Csv.write_row false [" a "; "b"] = (" a ,b" ++ Csv.LF)%string /\
  Csv.to_csv false (mkFrame ["x"; "y"] [[Str "1"; NaN]; [Str ""; Str "2"]]) =
    ("x,y" ++ Csv.LF ++ "1," ++ Csv.LF ++ ",2" ++ Csv.LF)%string.
Proof.
  repeat split.
Qed.

(** Left to the default, [read_csv] would have turned the empty field into
    the missing marker; with [keep_default_na=False] it does not. *)
Example empty_field_conversion :
  convert true "" = NaN /\ convert false "" = Str "" /\
  convert true "NA" = NaN /\ convert false "NA" = Str "NA".
Proof.
  repeat split.
Qed.


(** The same storage area, evaluated: the header-only file leaves a
    warning and nothing else. *)
Example header_only_file_skipped :
  Plain.combine [Plain.uploads; A_csv; H_csv; B_csv] =
  mkOutcome
    (SendFile (list_byte_of_string
       ("a,b" ++ Plain.LF ++ "1,2" ++ Plain.LF ++ "3,4" ++ Plain.LF)%string))
    [EmptyOrInvalid "H.csv"]
    [Plain.uploads] /\
  body (Plain.combine [Plain.uploads; A_csv; H_csv; B_csv]) =
  body (Plain.combine [Plain.uploads; A_csv; B_csv]).
Proof.
  split; reflexivity.
Qed.

Lemma staged_keys_distinct :
  NoDup (map fst [Plain.uploads; A_csv; B_csv]).
Proof.
  repeat constructor; cbn; intuition discriminate.
Qed.

Lemma combine_order_witness :
  exists df1 df2,
    list_byte_of_string ("a,b" ++ Plain.LF ++ "1,2" ++ Plain.LF ++ "3,4" ++ Plain.LF)%string =
      list_byte_of_string (Plain.to_csv df1) /\
    resp (Plain.combine [Plain.uploads; B_csv; A_csv]) =
      SendFile (list_byte_of_string (Plain.to_csv df2)) /\
    columns df1 = columns df2 /\
    Permutation (rows df1) (rows df2).
Proof.
  apply (combine_order Plain.tokenize Plain.to_csv
           [Plain.uploads; A_csv; B_csv] [Plain.uploads; B_csv; A_csv]).
  - exact staged_keys_distinct.
  - apply perm_skip, perm_swap.
  - reflexivity.
Defined.

(** C9, as it is stated, fails: the listing is not sorted, and two trees
    with the same files listed in different orders give different
    downloads. *)
Lemma listing_order_changes_output :
  Permutation [Plain.uploads; A_csv; B_csv] [Plain.uploads; B_csv; A_csv] /\
  resp (index [Plain.uploads; B_csv; A_csv]) = Page ["B.csv"; "A.csv"] /\
  Plain.body_text (Plain.combine [Plain.uploads; A_csv; B_csv]) =
    Some ("a,b" ++ Plain.LF ++ "1,2" ++ Plain.LF ++ "3,4" ++ Plain.LF)%string /\
  Plain.body_text (Plain.combine [Plain.uploads; B_csv; A_csv]) =
    Some ("a,b" ++ Plain.LF ++ "3,4" ++ Plain.LF ++ "1,2" ++ Plain.LF)%string /\
  body (Plain.combine [Plain.uploads; A_csv; B_csv]) <>
  body (Plain.combine [Plain.uploads; B_csv; A_csv]).
Proof.
  split; [apply perm_skip, perm_swap|].
  repeat split; try reflexivity. vm_compute. discriminate.
Qed.

(** A request holding a part without payload, an accepted part and a part
    with a name that is not accepted. *)
Example upload_batch :
  Plain.upload [Plain.uploads]
    [mkUpload "e.csv" []; mkUpload "../../x.CSV" (list_byte_of_string "a");
     mkUpload "a.txt" []] =
  mkOutcome Redirect
    [UploadEmpty "e.csv"; InvalidFile "a.txt"; Uploaded 1]
    [Plain.uploads; Plain.staged "x.CSV" "a"].
Proof.
  reflexivity.
Qed.

Lemma remove_stays_in_storage_witness :
  plain_name (secure_filename Werkzeug.ascii_only "../../etc/passwd") /\
  (false, [UPLOAD_FOLDER; "etc_passwd"]) =
    (false, [UPLOAD_FOLDER; secure_filename Werkzeug.ascii_only "../../etc/passwd"]) /\
  Os.lookup (false, [UPLOAD_FOLDER; "etc_passwd"])
    (disk (Plain.remove [Plain.uploads; Plain.staged "etc_passwd" "x"; etc_passwd]
             "../../etc/passwd")) = None.
Proof.
  apply (remove_stays_in_storage Werkzeug.ascii_only
           [Plain.uploads; Plain.staged "etc_passwd" "x"; etc_passwd]
           "../../etc/passwd" (false, [UPLOAD_FOLDER; "etc_passwd"])).
  vm_compute. discriminate.
Defined.

(** Path traversal in the name of a remove request reaches nothing outside
    the storage area. *)
Example remove_traversal :
  Plain.remove [Plain.uploads; A_csv; etc_passwd] "/etc/passwd" =
    mkOutcome Redirect [RemoveNotFound "/etc/passwd"] [Plain.uploads; A_csv; etc_passwd] /\
  Plain.remove [Plain.uploads; A_csv; etc_passwd] ".." =
    mkOutcome Redirect [RemoveFailed ".." IsADirectoryError]
      [Plain.uploads; A_csv; etc_passwd] /\
  Plain.remove [Plain.uploads; A_csv; etc_passwd] "../uploads/A.csv" =
    mkOutcome Redirect [RemoveNotFound "../uploads/A.csv"]
      [Plain.uploads; A_csv; etc_passwd] /\
  Plain.remove [Plain.uploads; A_csv; etc_passwd] "A.csv" =
    mkOutcome Redirect [Removed "A.csv"] [Plain.uploads; etc_passwd].
Proof.
  repeat split.
Qed.

(** * The further properties on concrete storage areas *)

Lemma tidy_samples :
  tidy [Plain.uploads; A_csv; E_csv; notes_txt].
Proof.
  intros k n H.
  repeat (destruct H as [H|H];
          [injection H as <- <-; split; [reflexivity|];
           repeat constructor; discriminate|]).
  destruct H.
Qed.

(** Folding to ASCII by dropping what is not ASCII leaves safe names
    alone. *)
Lemma ascii_only_safe (x : string) :
  string_forall Werkzeug.safe_char x = true -> Werkzeug.ascii_only x = x.
Proof.
  intros H. unfold Werkzeug.ascii_only. apply string_filter_id.
  revert H. apply string_forall_impl.
  intros c. destruct c as [[] [] [] [] [] [] [] []]; vm_compute; congruence.
Qed.

Lemma no_valid_data_witness :
  Plain.combine [Plain.uploads; H_csv; E_csv] =
  mkOutcome Redirect
    [EmptyOrInvalid "H.csv"; FileEmpty "E.csv"; NoValidData]
    [Plain.uploads; H_csv; E_csv].
Proof.
  apply (no_valid_data Plain.tokenize Plain.to_csv
           [Plain.uploads; H_csv; E_csv] ["H.csv"; "E.csv"]).
  - reflexivity.
  - discriminate.
  - intros p H e. each_listed H.
  - reflexivity.
Defined.

Lemma download_rows_provenance_witness :
  exists names h table,
    Os.listdir [Plain.uploads; A_csv; B_csv] UPLOAD_FOLDER = Ok names /\
    list_byte_of_string ("a,b" ++ Plain.LF ++ "1,2" ++ Plain.LF ++ "3,4" ++ Plain.LF)%string =
      list_byte_of_string (Plain.to_csv (mkFrame h table)) /\
    h <> [] /\ table <> [] /\
    forall row, In row table ->
      ~ In NaN row /\
      exists f content records r,
        In f (filter allowed_file names) /\
        Os.read_bytes [Plain.uploads; A_csv; B_csv] (staged_path f) = Ok content /\
        Plain.tokenize content = Ok (h, records) /\
        In r records /\ row = map Str r.
Proof.
  apply (download_rows_provenance Plain.tokenize Plain.to_csv
           [Plain.uploads; A_csv; B_csv]).
  reflexivity.
Defined.

Lemma combine_deletes_only_listed_witness :
  exists f c,
    allowed_file f = true /\ plain_name f /\ staged_key "A.csv" = staged_key f /\
    Os.lookup (staged_key "A.csv") [Plain.uploads; A_csv; E_csv; notes_txt] =
      Some (Os.File false c) /\
    Os.lookup (staged_key "A.csv")
      (disk (Plain.combine [Plain.uploads; A_csv; E_csv; notes_txt])) = None.
Proof.
  apply (combine_deletes_only_listed Plain.tokenize Plain.to_csv
           [Plain.uploads; A_csv; E_csv; notes_txt] (staged_key "A.csv")).
  - exact tidy_samples.
  - vm_compute. discriminate.
Defined.

Lemma upload_confined_witness :
  exists file,
    In file [mkUpload "../../etc/x.csv" (list_byte_of_string "a,b");
             mkUpload "empty.csv" []; mkUpload "run.sh" (list_byte_of_string "x")] /\
    acceptable file /\
    plain_name (secure_filename Werkzeug.ascii_only (filename file)) /\
    staged_key "etc_x.csv" =
      staged_key (secure_filename Werkzeug.ascii_only (filename file)) /\
    Os.lookup (staged_key "etc_x.csv")
      (disk (Plain.upload [Plain.uploads; etc_passwd]
         [mkUpload "../../etc/x.csv" (list_byte_of_string "a,b");
          mkUpload "empty.csv" []; mkUpload "run.sh" (list_byte_of_string "x")])) =
      Some (Os.File false (stream file)).
Proof.
  apply (upload_confined Werkzeug.ascii_only [Plain.uploads; etc_passwd]
           [mkUpload "../../etc/x.csv" (list_byte_of_string "a,b");
            mkUpload "empty.csv" []; mkUpload "run.sh" (list_byte_of_string "x")]
           (staged_key "etc_x.csv")).
  vm_compute. discriminate.
Defined.

Lemma plain_my_data : plain_name "my_data.CSV".
Proof.
  repeat split; discriminate.
Qed.

Lemma my_data_framed : framed (mkRequest 200 [my_data_part]).
Proof.
  reflexivity.
Qed.

Lemma my_data_within_limit :
  (req_length (mkRequest 200 [my_data_part]) <= MAX_CONTENT_LENGTH)%Z.
Proof.
  discriminate.
Qed.

Lemma upload_saves_and_lists_witness :
  post_upload Werkzeug.ascii_only [Plain.uploads] (mkRequest 200 [my_data_part]) =
    Some (mkOutcome Redirect [Uploaded 1]
            [Plain.uploads;
             Plain.staged "my_data.CSV" ("a,b" ++ Plain.LF ++ "1,2" ++ Plain.LF)%string]) /\
  resp (index [Plain.uploads;
               Plain.staged "my_data.CSV" ("a,b" ++ Plain.LF ++ "1,2" ++ Plain.LF)%string]) =
    Page ["my_data.CSV"].
Proof.
  destruct (upload_saves_and_lists Werkzeug.ascii_only [Plain.uploads]
              (mkRequest 200 [my_data_part]) my_data_part)
    as (E & _ & _).
  - reflexivity.
  - exact my_data_framed.
  - exact my_data_within_limit.
  - reflexivity.
  - reflexivity.
  - discriminate.
  - exact plain_my_data.
  - intros c. discriminate.
  - discriminate.
  - split; [exact E | reflexivity].
Defined.

Lemma upload_then_remove_witness :
  exists o,
    post_upload Werkzeug.ascii_only [Plain.uploads] (mkRequest 200 [my_data_part]) =
      Some o /\
    flashes (Plain.remove (disk o) "my_data.CSV") = [Removed "my_data.CSV"] /\
    disk (Plain.remove (disk o) "my_data.CSV") = [Plain.uploads].
Proof.
  destruct (upload_then_remove Werkzeug.ascii_only [Plain.uploads]
              (mkRequest 200 [my_data_part]) my_data_part)
    as (o & E0 & E1 & _ & E3).
  - exact ascii_only_safe.
  - reflexivity.
  - exact my_data_framed.
  - exact my_data_within_limit.
  - reflexivity.
  - reflexivity.
  - discriminate.
  - exact plain_my_data.
  - intros c. discriminate.
  - discriminate.
  - exists o. split; [exact E0|]. split; [exact E1 | exact (E3 eq_refl)].
Defined.

(** A part as long as the limit allows a request to be, or longer, never
    comes before [upload_files]. *)
Example request_over_limit :
  post_upload Werkzeug.ascii_only [Plain.uploads]
    (mkRequest (MAX_CONTENT_LENGTH + 1) [my_data_part]) = None.
Proof.
  reflexivity.
Qed.

Lemma remove_twice_witness :
  Plain.remove (disk (Plain.remove [Plain.uploads; A_csv; B_csv] "A.csv")) "A.csv" =
  mkOutcome Redirect [RemoveNotFound "A.csv"] [Plain.uploads; B_csv].
Proof.
  apply (remove_twice Werkzeug.ascii_only [Plain.uploads; A_csv; B_csv] "A.csv").
  reflexivity.
Defined.

Lemma combine_twice_witness :
  Plain.combine (disk (Plain.combine [Plain.uploads; A_csv; E_csv; notes_txt])) =
  mkOutcome Redirect [NoCsvFound] [Plain.uploads; notes_txt].
Proof.
  apply (combine_twice Plain.tokenize Plain.to_csv
           [Plain.uploads; A_csv; E_csv; notes_txt]
           (list_byte_of_string ("a,b" ++ Plain.LF ++ "1,2" ++ Plain.LF)%string)).
  - exact tidy_samples.
  - reflexivity.
  - reflexivity.
Defined.

Lemma upload_then_combine_witness :
  exists o,
    post_upload Werkzeug.ascii_only [Plain.uploads; notes_txt]
      (mkRequest 200 [my_data_part]) = Some o /\
    Plain.combine (disk o) =
    mkOutcome
      (SendFile (list_byte_of_string ("a,b" ++ Plain.LF ++ "1,2" ++ Plain.LF)%string))
      [] [Plain.uploads; notes_txt].
Proof.
  apply (upload_then_combine Werkzeug.ascii_only Plain.tokenize Plain.to_csv
           [Plain.uploads; notes_txt] ["notes.txt"]
           (mkRequest 200 [my_data_part]) my_data_part
           ["a"; "b"] [["1"; "2"]]).
  - reflexivity.
  - reflexivity.
  - reflexivity.
  - exact my_data_framed.
  - exact my_data_within_limit.
  - reflexivity.
  - discriminate.
  - exact plain_my_data.
  - reflexivity.
  - reflexivity.
  - discriminate.
  - discriminate.
Defined.

Lemma index_lists_staged_witness :
  exists names,
    index [Plain.uploads; B_csv; notes_txt; A_csv] =
      mkOutcome (Page names) [] [Plain.uploads; B_csv; notes_txt; A_csv] /\
    forall f, In f names <->
              allowed_file f = true /\
              Os.lookup (staged_key f) [Plain.uploads; B_csv; notes_txt; A_csv] <> None.
Proof.
  apply (index_lists_staged [Plain.uploads; B_csv; notes_txt; A_csv]).
  reflexivity.
Defined.

(** A name made of a dot and the extension passes [allowed_file], is
    saved without the dot, and is then out of reach of the listing. *)
Example dot_csv_is_saved_unlisted :
  Plain.upload [Plain.uploads] [mkUpload ".csv" (list_byte_of_string "a,b")] =
    mkOutcome Redirect [Uploaded 1] [Plain.uploads; Plain.staged "csv" "a,b"] /\
  resp (index [Plain.uploads; Plain.staged "csv" "a,b"]) = Page [].
Proof.
  split; reflexivity.
Qed.
